(** * Jenkins status watcher: a model of [Jenkins.py] and its properties

    The development follows the Python module top-down: strings and the
    ordered dictionaries of jobs, the event sink and [Jenkins.call], the
    classifier [Jenkins.status_change], the two files of persisted state
    ([load_files], [dump_all]) and the reconciliation cycle
    ([offline_update], [update]).  Effects (the object's [jobs] attribute,
    the files, the calls made to the sink, standard output) are threaded
    through a small state-and-exception monad. *)

From Stdlib Require Import String Ascii List Bool Arith Lia Sorted.
From stdpp Require Import base option list strings gmap.
From Equations Require Import Equations.
Import ListNotations.

Local Open Scope string_scope.
Local Open Scope list_scope.

(** ** Strings *)

Module Str.

(** Python's [needle in hay] on strings. *)
Fixpoint contains (needle hay : string) : bool :=
  String.prefix needle hay ||
  match hay with
  | EmptyString => false
  | String _ rest => contains needle rest
  end.

(** [s[-1]], [None] standing for the [IndexError] of the empty string. *)
Fixpoint last (s : string) : option ascii :=
  match s with
  | EmptyString => None
  | String c EmptyString => Some c
  | String _ rest => last rest
  end.

(** [s[:-1]]. *)
Fixpoint drop_last (s : string) : string :=
  match s with
  | EmptyString => EmptyString
  | String _ EmptyString => EmptyString
  | String c rest => String c (drop_last rest)
  end.

(** [sep.join(parts)]. *)
Fixpoint join (sep : string) (parts : list string) : string :=
  match parts with
  | [] => ""
  | [p] => p
  | p :: rest => p +:+ sep +:+ join sep rest
  end.

Definition newline : ascii := "010"%char.
Definition carriage_return : ascii := "013"%char.
Definition quote : ascii := "034"%char.
Definition slash : ascii := "/"%char.

(** [f.readline()] on a file opened in text mode with the default
    [newline=None]: the first line, its terminator ([\n], [\r] or [\r\n])
    included and translated to [\n]. *)
Fixpoint readline (content : string) : string :=
  match content with
  | EmptyString => EmptyString
  | String c rest =>
      if decide (c = newline) then String newline EmptyString
      else if decide (c = carriage_return) then String newline EmptyString
      else String c (readline rest)
  end.

End Str.

(** ** Data model *)

(** A snapshot of the server is an [OrderedDict] from job name to colour:
    an association list in insertion order.  Python keeps the keys of a
    dictionary distinct; the theorems that need it assume [NoDup] of the
    keys. *)
Definition snapshot := list (string * string).

Module Dict.

Definition keys (d : snapshot) : list string := map fst d.

(** [d.get(k)]: the value of the first (and, in a dictionary, only) entry. *)
Fixpoint get (k : string) (d : snapshot) : option string :=
  match d with
  | [] => None
  | (k', v) :: d' => if decide (k = k') then Some v else get k d'
  end.

(** [k in d]. *)
Definition mem (k : string) (d : snapshot) : bool :=
  match get k d with Some _ => true | None => false end.

(** [d[k] = v]: an existing key keeps its place, a new one goes last. *)
Fixpoint set (k v : string) (d : snapshot) : snapshot :=
  match d with
  | [] => [(k, v)]
  | (k', v') :: d' =>
      if decide (k = k') then (k', v) :: d' else (k', v') :: set k v d'
  end.

End Dict.

(** Positional arguments handed to a handler of the sink. *)
Inductive arg :=
| AStr (s : string)
| ABool (b : bool).

(** [str(a)]. *)
Definition str (a : arg) : string :=
  match a with
  | AStr s => s
  | ABool true => "True"
  | ABool false => "False"
  end.

(** What a handler of the sink does when called: the lines it prints and
    whether it returns ([true]) or raises ([false]). *)
Record handler_result := HandlerResult {
  h_out : list string;
  h_ok : bool
}.

Definition handler := list arg -> handler_result.

Inductive exn :=
| FileNotFoundError
| JSONDecodeError
| IndexError
| TypeError
| NameError
| AttributeError
| TransportError.

(** One call of [Jenkins.call]: the key, the arguments, and what became
    of it. *)
Inductive outcome :=
| Returned   (* the handler ran and returned *)
| Raised     (* the handler ran and raised *)
| NoHandler. (* [self.funcs[func_id]] raised [KeyError] *)

Record dispatch := Dispatch {
  d_func : string;
  d_args : list arg;
  d_outcome : outcome
}.

Record Jenkins := MkJenkins {
  url : string;
  offline : bool;
  verbose : bool;
  directory : string;
  funcs : gmap string handler;
  jobs : option snapshot
}.

(** The object together with the world it acts on.  A file is known by
    the string of its path; directories are not represented
    ([os.makedirs] has nothing to do). *)
Record state := MkState {
  self : Jenkins;
  fs : gmap string string;      (* path |-> content of the file *)
  log : list dispatch;          (* calls of [Jenkins.call], oldest first *)
  stdout : list string          (* printed lines, oldest first *)
}.

Definition set_jobs (j : option snapshot) (s : state) : state :=
  MkState
    (MkJenkins (url (self s)) (offline (self s)) (verbose (self s))
       (directory (self s)) (funcs (self s)) j)
    (fs s) (log s) (stdout s).

Definition set_fs (f : gmap string string) (s : state) : state :=
  MkState (self s) f (log s) (stdout s).

Definition add_log (d : dispatch) (s : state) : state :=
  MkState (self s) (fs s) (log s ++ [d]) (stdout s).

Definition add_out (lines : list string) (s : state) : state :=
  MkState (self s) (fs s) (log s) (stdout s ++ lines).

(** ** The monad of methods *)

Definition M (A : Type) : Type := state -> (exn + A) * state.

Definition ret {A} (a : A) : M A := fun s => (inr a, s).

Definition bind {A B} (m : M A) (k : A -> M B) : M B :=
  fun s =>
    match m s with
    | (inl e, s') => (inl e, s')
    | (inr a, s') => k a s'
    end.

Definition raise {A} (e : exn) : M A := fun s => (inl e, s).

Definition get_self : M Jenkins := fun s => (inr (self s), s).

Definition modify (f : state -> state) : M unit := fun s => (inr tt, f s).

Notation "'let*' x := m 'in' k" := (bind m (fun x => k))
  (at level 10, x name, m at level 100, k at level 200).
Notation "m ;; k" := (bind m (fun _ => k))
  (at level 100, k at level 200, right associativity).

Definition print (line : string) : M unit := modify (add_out [line]).

(** ** The sink *)

(** The default handlers of the module. *)
Definition say (prefix : string) : handler :=
  fun args =>
    match args with
    | [AStr name] => HandlerResult [prefix +:+ name] true
    | _ => HandlerResult [] false
    end.

Definition job_created : handler := say "Job created: ".
Definition job_deleted : handler := say "Job deleted: ".
Definition build_passed : handler := say "Build passed: ".
Definition build_failed : handler := say "Build failed: ".
Definition build_started : handler := say "Build started: ".
Definition build_aborted : handler := say "Build aborted: ".

(** Python's truth value of an argument. *)
Definition truthy (a : arg) : bool :=
  match a with
  | AStr s => negb (String.eqb s "")
  | ABool b => b
  end.

Definition unknown_colors : handler :=
  fun args =>
    let line name old_color new_color :=
      "Unrecognized color change: " +:+ str name +:+ " " +:+ str old_color
        +:+ "->" +:+ str new_color in
    match args with
    | [name; old_color; new_color] =>
        HandlerResult [line name old_color new_color] true
    | [name; old_color; new_color; verbose] =>
        HandlerResult
          (if truthy verbose then [line name old_color new_color] else [])
          true
    | _ => HandlerResult [] false
    end.

Definition function_error : string := "function-error".

Definition call_failed (func_id : string) (args : list arg) : string :=
  "Function call failed: " +:+ func_id +:+ "("
    +:+ Str.join ", " (map str args) +:+ ")".

(** [Jenkins.call]: look the handler up, run it, and turn any exception
    into the marker ["function-error"] after printing the attempted call. *)
Definition call (func_id : string) (args : list arg) : M string :=
  let* j := get_self in
  match funcs j !! func_id with
  | Some h =>
      let r := h args in
      modify (add_out (h_out r)) ;;
      if h_ok r then
        modify (add_log (Dispatch func_id args Returned)) ;;
        ret func_id
      else
        modify (add_log (Dispatch func_id args Raised)) ;;
        print (call_failed func_id args) ;;
        ret function_error
  | None =>
      modify (add_log (Dispatch func_id args NoHandler)) ;;
      print (call_failed func_id args) ;;
      ret function_error
  end.

(** ** The classifier *)

Definition status_change (name old_color new_color : string) : M string :=
  let* j := get_self in
  if Str.contains "anime" new_color && negb (Str.contains "anime" old_color)
  then call "started" [AStr name]
  else if decide (new_color = "aborted") then call "aborted" [AStr name]
  else if decide (new_color = "red") then call "failed" [AStr name]
  else if decide (new_color = "blue") then call "passed" [AStr name]
  else call "unknown"
         [AStr name; AStr old_color; AStr new_color; ABool (verbose j)].

(** ** Files *)

(** [json.dumps(jobs, indent=4, ensure_ascii=False)] for the values
    [self.jobs] takes: [None] or a dictionary from strings to strings. *)
Module Json.

Definition hex (n : nat) : string :=
  String (nth n (list_ascii_of_string "0123456789abcdef") "0"%char) "".

Definition backslash : ascii := "\"%char.

(** The encoder's table of escapes: the quote, the backslash, the named
    control characters, and [\u00XX] for the other codes below 32. *)
Definition escape (c : ascii) : string :=
  let n := nat_of_ascii c in
  if decide (c = Str.quote) then String backslash (String Str.quote "")
  else if decide (c = backslash) then String backslash (String backslash "")
  else if decide (n = 8) then "\b"
  else if decide (n = 9) then "\t"
  else if decide (n = 10) then "\n"
  else if decide (n = 12) then "\f"
  else if decide (n = 13) then "\r"
  else if Nat.ltb n 32 then "\u00" +:+ hex (n / 16) +:+ hex (n mod 16)
  else String c "".

Fixpoint escape_all (s : string) : string :=
  match s with
  | EmptyString => EmptyString
  | String c rest => escape c +:+ escape_all rest
  end.

Definition quoted (s : string) : string :=
  String Str.quote (escape_all s) +:+ String Str.quote "".

Definition newline_indent : string := String Str.newline "    ".

Definition item (kv : string * string) : string :=
  quoted (fst kv) +:+ ": " +:+ quoted (snd kv).

Definition dumps (v : option snapshot) : string :=
  match v with
  | None => "null"
  | Some [] => "{}"
  | Some d =>
      "{" +:+ newline_indent
        +:+ Str.join ("," +:+ newline_indent) (map item d)
        +:+ String Str.newline "}"
  end.

End Json.

(** [os.path.join(a, b)] on POSIX. *)
Definition path_join (a b : string) : string :=
  if String.prefix "/" b then b
  else if decide (a = "") then b
  else if decide (Str.last a = Some Str.slash) then a +:+ b
  else a +:+ "/" +:+ b.

(** [write_file]: [os.makedirs(os.path.dirname(path))] raises for the empty
    directory name of a path without ["/"], and the bare [except] then
    prints instead of writing.  Every other write succeeds in this model
    (a full disk or a missing permission is not represented). *)
Definition write_file (path data : string) : M unit :=
  if Str.contains "/" path
  then modify (fun s => set_fs (<[path := data]> (fs s)) s)
  else print ("Could not write to '" +:+ path +:+ "'").

Definition verbose_print (msg : string) : M unit :=
  let* j := get_self in
  if verbose j then print msg else ret tt.

Definition get_jobs_json : M string :=
  let* j := get_self in
  ret (Json.dumps (jobs j)).

Definition json_path : string := "jenkins_jobs.json".
Definition txt_path : string := "jenkins_server.txt".

Definition dump_all : M unit :=
  let* j := get_self in
  let* text := get_jobs_json in
  write_file (path_join (directory j) json_path) text ;;
  write_file (path_join (directory j) txt_path) (url j).

(** [open(path, "r")] followed by a read of the whole content. *)
Definition open_read (path : string) : M string :=
  fun s =>
    match fs s !! path with
    | Some content => (inr content, s)
    | None => (inl FileNotFoundError, s)
    end.

Section Loading.

(** [json.load(f, object_pairs_hook=OrderedDict)] is the library's parser:
    the development is parametric in it.  It maps the text of a file to
    the value read ([None] for [null], a dictionary otherwise) or to the
    exception raised. *)
Variable json_load : string -> exn + option snapshot.

Definition load_json (path : string) : M (option snapshot) :=
  let* text := open_read path in
  fun s => (json_load text, s).

Definition load_files : M unit :=
  let* j := get_self in
  let* content := open_read (path_join (directory j) txt_path) in
  let old_url := Str.readline content in
  if decide (old_url <> url j) then
    if verbose j then
      verbose_print "URL changed - history was lost." ;;
      verbose_print ("( " +:+ old_url +:+ " != " +:+ url j +:+ " )")
    else ret tt
  else
    verbose_print ("Jenkins URL matches: '" +:+ url j +:+ "'.") ;;
    let* d := load_json (directory j +:+ json_path) in
    modify (set_jobs d) ;;
    verbose_print
      ("Read previous status from '" +:+ json_path +:+ "' succesfully.").

End Loading.

(** ** Reconciliation *)

(** First loop of [offline_update]: the jobs that are gone. *)
Fixpoint deleted_loop (names : list string) (new_jobs changes : snapshot)
  : M snapshot :=
  match names with
  | [] => ret changes
  | name :: rest =>
      if negb (Dict.mem name new_jobs) then
        let* r := call "deleted" [AStr name] in
        deleted_loop rest new_jobs (Dict.set name r changes)
      else deleted_loop rest new_jobs changes
  end.

(** Second loop: the jobs that are new, and those whose colour changed. *)
Fixpoint changed_loop (items : snapshot) (old_jobs changes : snapshot)
  : M snapshot :=
  match items with
  | [] => ret changes
  | (name, new_color) :: rest =>
      match Dict.get name old_jobs with
      | None =>
          let* r := call "created" [AStr name] in
          changed_loop rest old_jobs (Dict.set name r changes)
      | Some old_color =>
          if decide (new_color <> old_color) then
            let* r := status_change name old_color new_color in
            changed_loop rest old_jobs (Dict.set name r changes)
          else changed_loop rest old_jobs changes
      end
  end.

(** The dictionary [changes] that [offline_update] builds. *)
Definition collect_changes (old_jobs new_jobs : snapshot) : M snapshot :=
  let* changes := deleted_loop (Dict.keys old_jobs) new_jobs [] in
  changed_loop new_jobs old_jobs changes.

(** [offline_update] builds [changes], stores the new jobs, and ends: it
    has no [return] statement, so that its value is [None].  Iterating
    over [self.jobs = None] is a [TypeError]. *)
Definition offline_update (new_jobs : snapshot) : M (option snapshot) :=
  let* j := get_self in
  match jobs j with
  | None => raise TypeError
  | Some old_jobs =>
      let* changes := collect_changes old_jobs new_jobs in
      modify (set_jobs (Some new_jobs)) ;;
      ret None
  end.

(** [internal_get] is the boundary to the transport: [got] is what it
    returned or raised in this cycle.  With a URL that is the sorted
    dictionary of [get_jobs_url] or the exception of the request; an
    offline object reads [self.input_file], an attribute that [__init__]
    does not set, so that [got] is [inl AttributeError] there. *)
Definition internal_get (got : exn + snapshot) : M snapshot :=
  fun s => (got, s).

(** Python's [not self.jobs]: true for [None] and for the empty
    dictionary. *)
Definition not_jobs (j : option snapshot) : bool :=
  match j with
  | None => true
  | Some [] => true
  | Some (_ :: _) => false
  end.

Definition update (got : exn + snapshot) : M (option snapshot) :=
  let* j := get_self in
  let* changes :=
    (if not_jobs (jobs j) then
       let* new_jobs := internal_get got in
       modify (set_jobs (Some new_jobs)) ;;
       ret None
     else
       let* new_jobs := internal_get got in
       offline_update new_jobs) in
  (if negb (String.eqb (directory j) "") then dump_all else ret tt) ;;
  ret changes.

(** ** Construction *)

Definition inspect {A} (a : A) : {b : A | a = b} := exist _ a eq_refl.

(** [while url[-1] == "/": url = url[:-1]].  When only slashes are left
    the index [-1] of the empty string raises [IndexError]. *)
Equations strip_slashes (url : string) : exn + string
  by wf (String.length url) lt :=
  strip_slashes url with inspect (Str.last url) := {
    | exist _ None _ => inl IndexError
    | exist _ (Some c) H =>
        if decide (c = Str.slash)
        then strip_slashes (Str.drop_last url)
        else inr url }.
Next Obligation.
  clear strip_slashes.
  match goal with H : Str.last ?u = Some ?c |- _ =>
    revert H; generalize c; induction u as [|a rest IH]
  end; simpl; [discriminate|].
  destruct rest as [|b rest]; simpl in *; [lia|].
  intros c H. specialize (IH c H). lia.
Qed.

(** The first statements of [__init__]: the server's identity and the
    [offline] flag.  Without [url] and [input_file] the method reaches
    [sys.exit(1)], and the module never binds the name [sys]. *)
Definition init_url (url input_file : option string)
  : exn + (string * bool) :=
  match url with
  | Some u =>
      match strip_slashes u with
      | inl e => inl e
      | inr u' =>
          inr (if negb (Str.contains "http" u') then "https://" +:+ u' else u',
               false)
      end
  | None =>
      match input_file with
      | Some f => inr (f, true)
      | None => inl NameError
      end
  end.

(** The seven handlers, overridden by the entries of [funcs]. *)
Definition init_funcs (funcs_arg : gmap string handler)
    (func_job_created func_job_deleted func_build_passed func_build_failed
     func_build_started func_build_aborted func_unknown_colors : handler)
  : gmap string handler :=
  union funcs_arg
    (<["unknown" := func_unknown_colors]>
       (<["aborted" := func_build_aborted]>
          (<["started" := func_build_started]>
             (<["failed" := func_build_failed]>
                (<["passed" := func_build_passed]>
                   (<["deleted" := func_job_deleted]>
                      (<["created" := func_job_created]> empty))))))).

Definition default_funcs : gmap string handler :=
  init_funcs empty job_created job_deleted build_passed build_failed
    build_started build_aborted unknown_colors.

Section Construction.

Variable json_load : string -> exn + option snapshot.

(** [try: self.load_files() except FileNotFoundError: ...]. *)
Definition try_load_files : M unit :=
  fun s =>
    match load_files json_load s with
    | (inl FileNotFoundError, s') =>
        verbose_print
          ("No files found for server " +:+ url (self s') +:+ ".") s'
    | r => r
    end.

(** [Jenkins.__init__] on the files [files]: the new object and its world,
    or the exception that leaves the constructor.  [table] is the
    dictionary [self.funcs] that the handler arguments give
    ([init_funcs]). *)
Definition init (url input_file : option string) (verbose : bool)
    (directory : string) (table : gmap string handler)
    (files : gmap string string) : exn + state :=
  match init_url url input_file with
  | inl e => inl e
  | inr (u, off) =>
      let s := MkState (MkJenkins u off verbose directory table None)
                 files [] [] in
      if negb (String.eqb directory "") then
        match try_load_files s with
        | (inl e, _) => inl e
        | (inr _, s') => inr s'
        end
      else inr s
  end.

End Construction.

(** * Vocabulary of the statements *)

(** What becomes of a call, read off the table of handlers. *)
Definition outcome_of (j : Jenkins) (func_id : string) (args : list arg)
  : outcome :=
  match funcs j !! func_id with
  | Some h => if h_ok (h args) then Returned else Raised
  | None => NoHandler
  end.

(** The value [Jenkins.call] returns. *)
Definition result_of (j : Jenkins) (func_id : string) (args : list arg)
  : string :=
  match outcome_of j func_id args with
  | Returned => func_id
  | _ => function_error
  end.

(** The lines a call prints: those of the handler, then the report of
    its failure. *)
Definition output_of (j : Jenkins) (func_id : string) (args : list arg)
  : list string :=
  match funcs j !! func_id with
  | Some h =>
      h_out (h args)
        ++ (if h_ok (h args) then [] else [call_failed func_id args])
  | None => [call_failed func_id args]
  end.

(** The entry of the log for a call. *)
Definition dispatch_of (j : Jenkins) (r : string * list arg) : dispatch :=
  Dispatch (fst r) (snd r) (outcome_of j (fst r) (snd r)).

(** The call that [status_change] makes, as data. *)
Definition status_request (verbose : bool) (name old_color new_color : string)
  : string * list arg :=
  if Str.contains "anime" new_color && negb (Str.contains "anime" old_color)
  then ("started", [AStr name])
  else if decide (new_color = "aborted") then ("aborted", [AStr name])
  else if decide (new_color = "red") then ("failed", [AStr name])
  else if decide (new_color = "blue") then ("passed", [AStr name])
  else ("unknown",
        [AStr name; AStr old_color; AStr new_color; ABool verbose]).

(** The state after a sequence of calls. *)
Definition after_calls (reqs : list (string * list arg)) (s : state) : state :=
  MkState (self s) (fs s)
    (log s ++ map (dispatch_of (self s)) reqs)
    (stdout s ++ flat_map (fun r => output_of (self s) (fst r) (snd r)) reqs).

(** The calls of the first loop of [offline_update], as data. *)
Definition deleted_requests (names : list string) (new_jobs : snapshot)
  : list (string * list arg) :=
  flat_map
    (fun name =>
       if negb (Dict.mem name new_jobs) then [("deleted", [AStr name])]
       else [])
    names.

(** The calls of the second loop, as data. *)
Definition changed_requests (verbose : bool) (items old_jobs : snapshot)
  : list (string * list arg) :=
  flat_map
    (fun item =>
       match Dict.get (fst item) old_jobs with
       | None => [("created", [AStr (fst item)])]
       | Some old_color =>
           if decide (snd item <> old_color)
           then [status_request verbose (fst item) old_color (snd item)]
           else []
       end)
    items.

(** All the calls of one cycle, in the order in which they are made. *)
Definition requests (verbose : bool) (old_jobs new_jobs : snapshot)
  : list (string * list arg) :=
  deleted_requests (Dict.keys old_jobs) new_jobs
    ++ changed_requests verbose new_jobs old_jobs.

(** The files after [dump_all] in a directory. *)
Definition saved_files (j : Jenkins) (files : gmap string string)
  : gmap string string :=
  <[path_join (directory j) txt_path := url j]>
    (<[path_join (directory j) json_path := Json.dumps (jobs j)]> files).

(** The last statements of [update]. *)
Definition persist (s : state) : state :=
  if negb (String.eqb (directory (self s)) "")
  then set_fs (saved_files (self s) (fs s)) s
  else s.

(** The job a call is about: its first argument. *)
Definition job_of (d : dispatch) : option string :=
  match d_args d with
  | AStr name :: _ => Some name
  | _ => None
  end.

(** The entries of a log that are about a job are selected with
    [about]. *)
Definition about (name : string) (d : dispatch) : bool :=
  bool_decide (job_of d = Some name).

Definition request_about (name : string) (r : string * list arg) : bool :=
  about name (Dispatch (fst r) (snd r) Returned).

(** The two files of the object's directory hold its jobs and its URL. *)
Definition persisted (s : state) : Prop :=
  fs s !! path_join (directory (self s)) json_path
    = Some (Json.dumps (jobs (self s)))
  /\ fs s !! path_join (directory (self s)) txt_path = Some (url (self s)).

(** A URL scheme at the head of a string: a letter, then letters, digits,
    [+], [-] or [.], then a colon. *)
Definition is_alpha (c : ascii) : bool :=
  let n := nat_of_ascii c in
  (Nat.leb 65 n && Nat.leb n 90) || (Nat.leb 97 n && Nat.leb n 122).

Definition is_scheme_char (c : ascii) : bool :=
  let n := nat_of_ascii c in
  is_alpha c || (Nat.leb 48 n && Nat.leb n 57)
  || Nat.eqb n 43 || Nat.eqb n 45 || Nat.eqb n 46.

Fixpoint scheme_tail (s : string) : bool :=
  match s with
  | EmptyString => false
  | String c rest =>
      if Nat.eqb (nat_of_ascii c) 58 then true
      else is_scheme_char c && scheme_tail rest
  end.

Definition begins_with_scheme (s : string) : bool :=
  match s with
  | EmptyString => false
  | String c rest => is_alpha c && scheme_tail rest
  end.

(** ** Sample data for the closed statements *)

Module Sample.

Definition server : string := "https://ci.example.com".

Definition engine (dir : string) (table : gmap string handler)
    (j : option snapshot) : state :=
  MkState (MkJenkins server false false dir table j) empty [] [].

(** A sink whose handler for deleted jobs raises. *)
Definition broken_sink : gmap string handler :=
  <["deleted" := fun _ => HandlerResult [] false]> default_funcs.

(** An object with two jobs and a sink that fails for deleted jobs. *)
Definition two_jobs : snapshot := [("A", "red"); ("B", "blue")].

Definition broken_engine : state := engine "./" broken_sink (Some two_jobs).

(** An object in the default directory of the constructor. *)
Definition dot_engine : state :=
  engine "." default_funcs (Some [("A", "blue")]).

(** A parser that knows the documents of a finite list: the text of each
    is read back as the value it was written from. *)
Fixpoint load_known (docs : list (option snapshot)) (text : string)
  : exn + option snapshot :=
  match docs with
  | [] => inl JSONDecodeError
  | d :: rest =>
      if String.eqb text (Json.dumps d) then inr d else load_known rest text
  end.

End Sample.

(** * The rest of the module *)

(** ** Fetching *)

(** Python's [<] on the pairs of [jobs.items()]: the names decide, then
    the colours; strings compare character by character. *)
Definition item_ltb (a b : string * string) : bool :=
  match String.compare (fst a) (fst b) with
  | Lt => true
  | Eq => String.ltb (snd a) (snd b)
  | Gt => false
  end.

(** [sorted(items)], as a stable insertion sort: the order on pairs of
    strings is total, so that every sort returns this list. *)
Fixpoint insert_item (x : string * string) (l : snapshot) : snapshot :=
  match l with
  | [] => [x]
  | y :: l' => if item_ltb y x then y :: insert_item x l' else x :: y :: l'
  end.

Fixpoint sorted (l : snapshot) : snapshot :=
  match l with
  | [] => []
  | x :: l' => insert_item x (sorted l')
  end.

Inductive key_error := KeyError (key : string).

(** The loop of [get_jobs_url] over [dictionary["jobs"]], each job being a
    JSON object with string members. *)
Fixpoint collect_jobs (entries : list (gmap string string)) (jobs : snapshot)
  : key_error + snapshot :=
  match entries with
  | [] => inr jobs
  | job :: rest =>
      match job !! "name" with
      | None => inl (KeyError "name")
      | Some name =>
          match job !! "color" with
          | None => inl (KeyError "color")
          | Some color => collect_jobs rest (Dict.set name color jobs)
          end
      end
  end.

(** [Jenkins.get_jobs_url] on the reply [dictionary] of [api_get]. *)
Definition get_jobs_url (dictionary : gmap string (list (gmap string string)))
  : key_error + snapshot :=
  match dictionary !! "jobs" with
  | None => inl (KeyError "jobs")
  | Some entries =>
      match collect_jobs entries [] with
      | inl e => inl e
      | inr jobs => inr (sorted jobs)
      end
  end.

(** ** Queries *)

(** [get_job_names], consumed to the end: iterating over [None] is a
    [TypeError]. *)
Definition get_job_names : M (list string) :=
  let* j := get_self in
  match jobs j with
  | None => raise TypeError
  | Some d => ret (Dict.keys d)
  end.

(** The loop of [get_running_jobs]. *)
Fixpoint running_names (items : snapshot) : list string :=
  match items with
  | [] => []
  | (name, color) :: rest =>
      if Str.contains "anime" color then name :: running_names rest
      else running_names rest
  end.

(** [get_running_jobs], consumed to the end: [None] has no [items]. *)
Definition get_running_jobs : M (list string) :=
  let* j := get_self in
  match jobs j with
  | None => raise AttributeError
  | Some d => ret (running_names d)
  end.

(** ** Vocabulary of the further statements *)

(** The same object with another table of handlers. *)
Definition set_funcs (table : gmap string handler) (s : state) : state :=
  MkState
    (MkJenkins (url (self s)) (offline (self s)) (verbose (self s))
       (directory (self s)) table (jobs (self s)))
    (fs s) (log s) (stdout s).

(** The key and the arguments of an entry of the log. *)
Definition request_of (d : dispatch) : string * list arg :=
  (d_func d, d_args d).

(** The entry of [changes] that an entry of the log stands for. *)
Definition change_of (d : dispatch) : option (string * string) :=
  match job_of d with
  | Some name =>
      Some (name,
            match d_outcome d with
            | Returned => d_func d
            | _ => function_error
            end)
  | None => None
  end.

(** A string without line break. *)
Fixpoint single_line (u : string) : bool :=
  match u with
  | EmptyString => true
  | String c rest =>
      negb (Ascii.eqb c Str.newline) && negb (Ascii.eqb c Str.carriage_return)
      && single_line rest
  end.

(** A string of slashes only (the empty one included). *)
Fixpoint only_slashes (u : string) : bool :=
  match u with
  | EmptyString => true
  | String c rest => Ascii.eqb c Str.slash && only_slashes rest
  end.

(** The colour that the last job named [name] of a reply has. *)
Fixpoint last_color (name : string) (entries : list (gmap string string))
  : option string :=
  match entries with
  | [] => None
  | job :: rest =>
      match last_color name rest with
      | Some color => Some color
      | None =>
          if decide (job !! "name" = Some name) then job !! "color" else None
      end
  end.

(** The seven keys of [self.funcs]. *)
Definition seven_keys : list string :=
  ["created"; "deleted"; "passed"; "failed"; "started"; "aborted"; "unknown"].

(** The calls of a cycle of [update] on an object whose snapshot is
    [prior]. *)
Definition cycle_requests (verbose : bool) (prior : option snapshot)
    (new_jobs : snapshot) : list (string * list arg) :=
  match prior with
  | Some (item :: old_jobs) => requests verbose (item :: old_jobs) new_jobs
  | _ => []
  end.

(** The entry of [changes] for a call. *)
Definition entry_of (j : Jenkins) (r : string * list arg)
  : option (string * string) :=
  change_of (dispatch_of j r).


(** * Lemmas *)

(** ** Calls and loops *)

Lemma call_run (func_id : string) (args : list arg) (s : state) :
  call func_id args s =
    (inr (result_of (self s) func_id args),
     MkState (self s) (fs s)
       (log s ++ [dispatch_of (self s) (func_id, args)])
       (stdout s ++ output_of (self s) func_id args)).
Proof.
  unfold call, result_of, output_of, dispatch_of, outcome_of, bind, get_self.
  simpl. destruct (funcs (self s) !! func_id) as [h|]; simpl.
  - destruct (h_ok (h args)); simpl; unfold add_log, add_out; simpl.
    + rewrite app_nil_r. reflexivity.
    + rewrite <- app_assoc. reflexivity.
  - reflexivity.
Qed.

Lemma status_change_run (name old_color new_color : string) (s : state) :
  status_change name old_color new_color s =
    call (fst (status_request (verbose (self s)) name old_color new_color))
         (snd (status_request (verbose (self s)) name old_color new_color)) s.
Proof.
  unfold status_change, status_request, bind, get_self; simpl.
  destruct (Str.contains "anime" new_color
            && negb (Str.contains "anime" old_color)); [reflexivity|].
  repeat (case_decide; [reflexivity|]). reflexivity.
Qed.

Lemma after_calls_nil (s : state) : after_calls [] s = s.
Proof.
  destruct s; unfold after_calls; simpl. rewrite !app_nil_r. reflexivity.
Qed.

Lemma after_calls_cons (r : string * list arg) reqs (s : state) :
  after_calls reqs (snd (call (fst r) (snd r) s)) = after_calls (r :: reqs) s.
Proof.
  rewrite call_run. unfold after_calls; simpl.
  rewrite <- !app_assoc. destruct r; reflexivity.
Qed.

Lemma after_calls_app reqs1 reqs2 (s : state) :
  after_calls reqs2 (after_calls reqs1 s) = after_calls (reqs1 ++ reqs2) s.
Proof.
  unfold after_calls; simpl.
  rewrite map_app, flat_map_app, <- !app_assoc. reflexivity.
Qed.

Lemma deleted_loop_run names new_jobs changes (s : state) :
  exists changes',
    deleted_loop names new_jobs changes s =
      (inr changes', after_calls (deleted_requests names new_jobs) s).
Proof.
  revert changes s. induction names as [|name rest IH]; intros changes s.
  - exists changes. simpl. rewrite after_calls_nil. reflexivity.
  - simpl. destruct (negb (Dict.mem name new_jobs)); simpl.
    + unfold bind. rewrite call_run.
      destruct (IH (Dict.set name (result_of (self s) "deleted" [AStr name])
                      changes)
                  (snd (call "deleted" [AStr name] s))) as [c' Hc'].
      rewrite call_run in Hc'. simpl in Hc'. exists c'. rewrite Hc'.
      f_equal. rewrite <- (after_calls_cons ("deleted", [AStr name])).
      rewrite call_run. reflexivity.
    + apply IH.
Qed.

Lemma changed_loop_run items old_jobs changes (s : state) :
  exists changes',
    changed_loop items old_jobs changes s =
      (inr changes',
       after_calls (changed_requests (verbose (self s)) items old_jobs) s).
Proof.
  revert changes s. induction items as [|[name new_color] rest IH];
    intros changes s.
  - exists changes. simpl. rewrite after_calls_nil. reflexivity.
  - simpl. destruct (Dict.get name old_jobs) as [old_color|].
    + case_decide.
      * unfold bind. rewrite status_change_run, call_run.
        set (r := status_request (verbose (self s)) name old_color new_color).
        destruct (IH (Dict.set name (result_of (self s) (fst r) (snd r))
                        changes)
                    (snd (call (fst r) (snd r) s))) as [c' Hc'].
        rewrite call_run in Hc'. simpl in Hc'. exists c'. rewrite Hc'.
        f_equal. simpl. rewrite <- (after_calls_cons r).
        rewrite call_run. reflexivity.
      * apply IH.
    + unfold bind. rewrite call_run.
      destruct (IH (Dict.set name (result_of (self s) "created" [AStr name])
                      changes)
                  (snd (call "created" [AStr name] s))) as [c' Hc'].
      rewrite call_run in Hc'. simpl in Hc'. exists c'. rewrite Hc'.
      f_equal. simpl. rewrite <- (after_calls_cons ("created", [AStr name])).
      rewrite call_run. reflexivity.
Qed.

Lemma collect_changes_run old_jobs new_jobs (s : state) :
  exists changes,
    collect_changes old_jobs new_jobs s =
      (inr changes,
       after_calls (requests (verbose (self s)) old_jobs new_jobs) s).
Proof.
  unfold collect_changes, bind, requests.
  destruct (deleted_loop_run (Dict.keys old_jobs) new_jobs [] s) as [c1 H1].
  rewrite H1.
  destruct (changed_loop_run new_jobs old_jobs c1
              (after_calls (deleted_requests (Dict.keys old_jobs) new_jobs) s))
    as [c2 H2].
  rewrite H2. exists c2. rewrite after_calls_app. reflexivity.
Qed.

Lemma offline_update_run old_jobs new_jobs (s : state) :
  jobs (self s) = Some old_jobs ->
  offline_update new_jobs s =
    (inr None,
     set_jobs (Some new_jobs)
       (after_calls (requests (verbose (self s)) old_jobs new_jobs) s)).
Proof.
  intros Hj. unfold offline_update, bind, get_self; simpl. rewrite Hj.
  destruct (collect_changes_run old_jobs new_jobs s) as [c Hc].
  rewrite Hc. reflexivity.
Qed.

(** ** Strings and paths *)

Lemma app_cons (c : ascii) (a b : string) :
  String c a +:+ b = String c (a +:+ b).
Proof. reflexivity. Qed.

Lemma prefix_nil (a : string) : String.prefix "" a = true.
Proof. destruct a; reflexivity. Qed.

Lemma prefix_app_l (n a b : string) :
  String.prefix n a = true -> String.prefix n (a +:+ b) = true.
Proof.
  revert a. induction n as [|c n IH]; intros a H; [apply prefix_nil|].
  destruct a as [|c' a]; [discriminate|]. rewrite app_cons. simpl in *.
  destruct (ascii_dec c c'); [apply IH; assumption | discriminate].
Qed.

Lemma contains_app_l (n a b : string) :
  Str.contains n a = true -> Str.contains n (a +:+ b) = true.
Proof.
  induction a as [|c a IH]; intros H.
  - simpl in H. rewrite orb_false_r in H. destruct n; [|discriminate].
    destruct b; reflexivity.
  - rewrite app_cons. simpl in H. apply orb_true_iff in H as [H|H].
    + apply (prefix_app_l _ (String c a) b) in H. rewrite app_cons in H.
      change (String.prefix n (String c (a +:+ b))
              || Str.contains n (a +:+ b) = true).
      rewrite H. reflexivity.
    + change (String.prefix n (String c (a +:+ b))
              || Str.contains n (a +:+ b) = true).
      rewrite (IH H). apply orb_true_r.
Qed.

Lemma contains_app_r (n a b : string) :
  Str.contains n b = true -> Str.contains n (a +:+ b) = true.
Proof.
  intros H. induction a as [|c a IH]; [exact H|].
  rewrite app_cons.
  change (String.prefix n (String c (a +:+ b))
          || Str.contains n (a +:+ b) = true).
  rewrite IH. apply orb_true_r.
Qed.

Lemma last_contains (a : string) (c : ascii) :
  Str.last a = Some c -> Str.contains (String c "") a = true.
Proof.
  induction a as [|c' a IH]; [discriminate|].
  destruct a as [|c'' a].
  - simpl. intros [= ->]. destruct (ascii_dec c c); [reflexivity|congruence].
  - intros H. change (Str.last (String c'' a) = Some c) in H.
    specialize (IH H).
    change (String.prefix (String c "") (String c' (String c'' a))
            || Str.contains (String c "") (String c'' a) = true).
    rewrite IH. apply orb_true_r.
Qed.

Lemma path_join_has_slash (a b : string) :
  a <> "" -> Str.contains "/" (path_join a b) = true.
Proof.
  intros Ha. unfold path_join.
  destruct (String.prefix "/" b) eqn:Hb.
  - destruct b; simpl in *; rewrite Hb; reflexivity.
  - case_decide; [contradiction|]. case_decide.
    + apply contains_app_l. apply (last_contains a Str.slash). assumption.
    + apply contains_app_r. destruct b; reflexivity.
Qed.

Lemma app_inj_r (a b c : string) : a +:+ b = a +:+ c -> b = c.
Proof.
  induction a as [|x a IH]; [tauto|].
  rewrite !app_cons. intros [= H]. apply IH, H.
Qed.

Lemma app_assoc_string (a b c : string) : (a +:+ b) +:+ c = a +:+ (b +:+ c).
Proof.
  induction a as [|x a IH]; [reflexivity|]. rewrite !app_cons, IH. reflexivity.
Qed.

Lemma last_app (a b : string) : b <> "" -> Str.last (a +:+ b) = Str.last b.
Proof.
  intros Hb. induction a as [|c a IH]; [reflexivity|].
  rewrite app_cons. simpl. rewrite IH.
  destruct (a +:+ b) eqn:Hab; [|reflexivity].
  destruct a; [|discriminate Hab]. simpl in Hab. contradiction.
Qed.

Lemma drop_last_app (s : string) (c : ascii) :
  Str.last s = Some c -> s = Str.drop_last s +:+ String c "".
Proof.
  induction s as [|a s IH]; [discriminate|].
  destruct s as [|b s].
  - simpl. intros [= ->]. reflexivity.
  - intros H. change (Str.last (String b s) = Some c) in H.
    change (Str.drop_last (String a (String b s)))
      with (String a (Str.drop_last (String b s))).
    rewrite app_cons, <- (IH H). reflexivity.
Qed.

Lemma json_txt_paths_differ (dir : string) :
  path_join dir json_path <> path_join dir txt_path.
Proof.
  unfold path_join. simpl.
  repeat case_decide; intros Heq; try discriminate Heq;
    apply app_inj_r in Heq; try apply (app_inj_r "/") in Heq;
    discriminate Heq.
Qed.

Lemma path_join_after_slash (dir name : string) :
  Str.last dir = Some Str.slash ->
  String.prefix "/" name = false ->
  path_join dir name = dir +:+ name.
Proof.
  intros Hl Hn. unfold path_join. rewrite Hn.
  case_decide; [subst; discriminate Hl|].
  case_decide; [reflexivity | contradiction].
Qed.

(** ** Persisting and the cycle *)

Lemma dump_all_run (s : state) :
  directory (self s) <> "" ->
  dump_all s = (inr tt, set_fs (saved_files (self s) (fs s)) s).
Proof.
  intros Hd. unfold dump_all, get_jobs_json, write_file, bind, get_self, ret.
  simpl. rewrite !path_join_has_slash by assumption. reflexivity.
Qed.

Lemma persist_run (s : state) :
  (if negb (String.eqb (directory (self s)) "") then dump_all else ret tt) s
  = (inr tt, persist s).
Proof.
  unfold persist. destruct (String.eqb_spec (directory (self s)) ""); simpl.
  - reflexivity.
  - apply dump_all_run. assumption.
Qed.

Lemma persist_self (s : state) : self (persist s) = self s.
Proof. unfold persist. destruct (negb _); reflexivity. Qed.

Lemma persist_log (s : state) : log (persist s) = log s.
Proof. unfold persist. destruct (negb _); reflexivity. Qed.

Lemma persist_stdout (s : state) : stdout (persist s) = stdout s.
Proof. unfold persist. destruct (negb _); reflexivity. Qed.

Lemma persist_persisted (s : state) :
  directory (self s) <> "" -> persisted (persist s).
Proof.
  intros Hd. unfold persisted, persist.
  destruct (String.eqb_spec (directory (self s)) ""); [contradiction|].
  simpl. unfold saved_files. split.
  - rewrite lookup_insert_ne by (apply not_eq_sym, json_txt_paths_differ).
    apply lookup_insert_eq.
  - apply lookup_insert_eq.
Qed.

Lemma persist_without_directory (s : state) :
  directory (self s) = "" -> persist s = s.
Proof. intros Hd. unfold persist. rewrite Hd. reflexivity. Qed.

Lemma update_first_run new_jobs (s : state) :
  not_jobs (jobs (self s)) = true ->
  update (inr new_jobs) s = (inr None, persist (set_jobs (Some new_jobs) s)).
Proof.
  intros Hn. pose proof (persist_run (set_jobs (Some new_jobs) s)) as Hp.
  unfold update, bind, get_self, internal_get, modify. simpl in *.
  rewrite Hn. simpl. rewrite Hp. reflexivity.
Qed.

Lemma update_with_prior old_jobs new_jobs (s : state) :
  jobs (self s) = Some old_jobs ->
  not_jobs (Some old_jobs) = false ->
  update (inr new_jobs) s =
    (inr None,
     persist
       (set_jobs (Some new_jobs)
          (after_calls (requests (verbose (self s)) old_jobs new_jobs) s))).
Proof.
  intros Hj Hn.
  pose proof (persist_run
                (set_jobs (Some new_jobs)
                   (after_calls
                      (requests (verbose (self s)) old_jobs new_jobs) s)))
    as Hp.
  pose proof (offline_update_run old_jobs new_jobs s Hj) as Ho.
  destruct old_jobs as [|item old_jobs]; [discriminate|].
  unfold update, bind, get_self, internal_get. simpl in *.
  rewrite Hj. simpl. rewrite Ho, Hp. reflexivity.
Qed.

(** The branch of [update] for an object without jobs. *)
Lemma first_run_facts (new_jobs : snapshot) (s : state) :
  not_jobs (jobs (self s)) = true ->
  fst (update (inr new_jobs) s) = inr None
  /\ jobs (self (snd (update (inr new_jobs) s))) = Some new_jobs
  /\ log (snd (update (inr new_jobs) s)) = log s
  /\ stdout (snd (update (inr new_jobs) s)) = stdout s
  /\ (directory (self s) <> "" -> persisted (snd (update (inr new_jobs) s)))
  /\ (directory (self s) = "" -> fs (snd (update (inr new_jobs) s)) = fs s).
Proof.
  intros Hn. rewrite update_first_run by exact Hn. simpl.
  rewrite persist_self, persist_log, persist_stdout. simpl.
  repeat split; try reflexivity.
  - apply (persist_persisted (set_jobs (Some new_jobs) s)). assumption.
  - apply (persist_persisted (set_jobs (Some new_jobs) s)). assumption.
  - intros Hd. rewrite persist_without_directory by exact Hd. reflexivity.
Qed.

(** ** Dictionaries *)

Lemma get_None (k : string) (d : snapshot) :
  Dict.get k d = None <-> ~ In k (Dict.keys d).
Proof.
  induction d as [|[k' v] d IH]; simpl.
  - tauto.
  - case_decide; subst.
    + split; [discriminate | intros H; exfalso; apply H; left; reflexivity].
    + rewrite IH. split; [intros H1 [H2|H2]; [congruence|tauto] | tauto].
Qed.

Lemma mem_false (k : string) (d : snapshot) :
  Dict.mem k d = false <-> ~ In k (Dict.keys d).
Proof.
  rewrite <- get_None. unfold Dict.mem.
  destruct (Dict.get k d); split; congruence.
Qed.

Lemma get_In (k v : string) (d : snapshot) :
  NoDup (Dict.keys d) -> In (k, v) d -> Dict.get k d = Some v.
Proof.
  induction d as [|[k' v'] d IH]; simpl; [tauto|].
  intros Hnd Hin. apply NoDup_cons in Hnd as [Hk Hnd].
  destruct Hin as [[= -> ->]|Hin].
  - case_decide; congruence.
  - case_decide; subst.
    + exfalso. apply Hk. apply list_elem_of_In.
      change (In k' (map fst d)). apply (in_map fst) in Hin. exact Hin.
    + apply IH; assumption.
Qed.

(** ** The calls about one job *)

Lemma filter_dispatches (j : Jenkins) (name : string) reqs :
  List.filter (about name) (map (dispatch_of j) reqs)
  = map (dispatch_of j) (List.filter (request_about name) reqs).
Proof.
  induction reqs as [|r reqs IH]; simpl; [reflexivity|].
  change (about name (dispatch_of j r)) with (request_about name r).
  destruct (request_about name r); simpl; rewrite IH; reflexivity.
Qed.

Lemma status_request_job (v : bool) (name old_color new_color : string) :
  exists func_id rest,
    status_request v name old_color new_color = (func_id, AStr name :: rest)
    /\ func_id <> "deleted" /\ func_id <> "created".
Proof.
  unfold status_request.
  destruct (_ && _); [eexists _, _; split; [reflexivity|split; discriminate]|].
  repeat (case_decide;
          [eexists _, _; split; [reflexivity|split; discriminate]|]).
  eexists _, _; split; [reflexivity|split; discriminate].
Qed.

Lemma request_about_same (name func_id : string) (rest : list arg) :
  request_about name (func_id, AStr name :: rest) = true.
Proof. unfold request_about, about, job_of; simpl. apply bool_decide_eq_true. reflexivity. Qed.

Lemma request_about_other (name name' func_id : string) (rest : list arg) :
  name' <> name ->
  request_about name (func_id, AStr name' :: rest) = false.
Proof.
  intros H. unfold request_about, about, job_of; simpl.
  apply bool_decide_eq_false. congruence.
Qed.

Lemma deleted_requests_other (name : string) names new_jobs :
  ~ In name names \/ Dict.mem name new_jobs = true ->
  List.filter (request_about name) (deleted_requests names new_jobs) = [].
Proof.
  intros H. induction names as [|n names IH]; simpl; [reflexivity|].
  assert (Hrest : ~ In name names \/ Dict.mem name new_jobs = true)
    by (destruct H as [H|H]; [left; intros H'; apply H; right; exact H' | tauto]).
  specialize (IH Hrest).
  destruct (Dict.mem n new_jobs) eqn:Hm; simpl; [exact IH|].
  rewrite request_about_other; [exact IH|].
  intros ->. destruct H as [H|H]; [apply H; left; reflexivity | congruence].
Qed.

Lemma deleted_requests_one (name : string) names new_jobs :
  NoDup names -> In name names -> Dict.mem name new_jobs = false ->
  List.filter (request_about name) (deleted_requests names new_jobs)
  = [("deleted", [AStr name])].
Proof.
  intros Hnd Hin Hm. induction names as [|n names IH]; simpl; [destruct Hin|].
  apply NoDup_cons in Hnd as [Hn Hnd]. rewrite list_elem_of_In in Hn.
  destruct Hin as [->|Hin].
  - rewrite Hm. simpl. rewrite request_about_same.
    rewrite deleted_requests_other by tauto. reflexivity.
  - assert (n <> name) by (intros ->; tauto).
    destruct (Dict.mem n new_jobs); simpl.
    + apply IH; assumption.
    + rewrite request_about_other by assumption. apply IH; assumption.
Qed.

Lemma changed_requests_other (v : bool) (name : string) items old_jobs :
  (forall color, In (name, color) items ->
     Dict.get name old_jobs = Some color) ->
  List.filter (request_about name) (changed_requests v items old_jobs) = [].
Proof.
  induction items as [|[n c] items IH]; intros H; simpl; [reflexivity|].
  assert (IH' := IH (fun color Hc => H color (or_intror Hc))).
  destruct (decide (n = name)) as [->|Hne].
  - rewrite (H c) by (left; reflexivity).
    case_decide; [congruence|]. exact IH'.
  - destruct (Dict.get n old_jobs) as [old_color|]; simpl.
    + case_decide; simpl; [|exact IH'].
      destruct (status_request_job v n old_color c) as (f & rest & -> & _).
      rewrite request_about_other by assumption. exact IH'.
    + rewrite request_about_other by assumption. exact IH'.
Qed.

Lemma changed_requests_created (v : bool) (name : string) items old_jobs :
  NoDup (Dict.keys items) -> In name (Dict.keys items) ->
  Dict.get name old_jobs = None ->
  List.filter (request_about name) (changed_requests v items old_jobs)
  = [("created", [AStr name])].
Proof.
  intros Hnd Hin Hg. induction items as [|[n c] items IH]; [destruct Hin|].
  simpl in *. apply NoDup_cons in Hnd as [Hn Hnd].
  rewrite list_elem_of_In in Hn.
  destruct Hin as [->|Hin].
  - rewrite Hg. simpl. rewrite request_about_same.
    rewrite changed_requests_other; [reflexivity|].
    intros color Hc. exfalso. apply Hn.
    change (In name (map fst items)). apply (in_map fst) in Hc. exact Hc.
  - assert (n <> name) by (intros ->; tauto).
    destruct (Dict.get n old_jobs) as [old_color|]; simpl.
    + case_decide; simpl; [|apply IH; assumption].
      destruct (status_request_job v n old_color c) as (f & rest & -> & _).
      rewrite request_about_other by assumption. apply IH; assumption.
    + rewrite request_about_other by assumption. apply IH; assumption.
Qed.

Lemma deleted_requests_func names new_jobs :
  Forall (fun r => fst r = "deleted") (deleted_requests names new_jobs).
Proof.
  induction names as [|n names IH]; simpl; [constructor|].
  destruct (negb _); simpl; [constructor; [reflexivity|]|]; exact IH.
Qed.

Lemma changed_requests_func (v : bool) items old_jobs :
  Forall (fun r => fst r <> "deleted") (changed_requests v items old_jobs).
Proof.
  induction items as [|[n c] items IH]; simpl; [constructor|].
  destruct (Dict.get n old_jobs) as [old_color|]; simpl.
  - case_decide; simpl; [|exact IH].
    destruct (status_request_job v n old_color c) as (f & rest & -> & Hf & _).
    constructor; assumption.
  - constructor; [discriminate | exact IH].
Qed.

Lemma requests_same (v : bool) (d : snapshot) :
  NoDup (Dict.keys d) -> requests v d d = [].
Proof.
  intros Hnd. unfold requests.
  assert (H1 : forall names, (forall n, In n names -> In n (Dict.keys d)) ->
                deleted_requests names d = []).
  { induction names as [|n names IH]; intros Hin; simpl; [reflexivity|].
    destruct (Dict.mem n d) eqn:Hm.
    - simpl. apply IH. intros n' Hn'. apply Hin. right. exact Hn'.
    - apply mem_false in Hm. exfalso. apply Hm, Hin. left. reflexivity. }
  rewrite H1 by tauto. simpl.
  assert (H2 : forall items, (forall kv, In kv items -> In kv d) ->
                changed_requests v items d = []).
  { induction items as [|[n c] items IH]; intros Hin; simpl; [reflexivity|].
    rewrite (get_In n c d Hnd) by (apply Hin; left; reflexivity).
    case_decide; [congruence|]. apply IH.
    intros kv Hkv. apply Hin. right. exact Hkv. }
  apply H2. tauto.
Qed.

(** ** The identity of the server *)

Lemma strip_slashes_spec (u v : string) :
  strip_slashes u = inr v -> Str.last v <> Some Str.slash /\ v <> "".
Proof.
  funelim (strip_slashes u).
  - case_decide as Hc.
    + intros Hv. eapply H0; eauto.
    + intros [= <-]. split; [congruence|].
      intros ->. discriminate H.
  - discriminate.
Qed.

Lemma strip_slashes_prefix (u v : string) :
  strip_slashes u = inr v -> exists t, u = v +:+ t.
Proof.
  funelim (strip_slashes u).
  - case_decide as Hc.
    + intros Hv. destruct (H0 Hc v Hv) as [t Ht].
      exists (t +:+ String c ""). rewrite <- app_assoc_string, <- Ht.
      apply drop_last_app. assumption.
    + intros [= <-]. exists "". clear. induction url0 as [|x a IH];
        [reflexivity|]. rewrite app_cons, <- IH. reflexivity.
  - discriminate.
Qed.

(** X1. What does hold of the identity that [__init__] computes from a
    URL: it is not empty, does not end in a slash, and contains ["http"]; a
    URL without ["http"] gets the prefix ["https://"]. *)
Lemma init_url_identity (u v : string) (off : bool) :
  init_url (Some u) None = inr (v, off) ->
  v <> "" /\ Str.last v <> Some Str.slash
  /\ Str.contains "http" v = true /\ off = false
  /\ (Str.contains "http" u = false -> String.prefix "https://" v = true).
Proof.
  unfold init_url. destruct (strip_slashes u) as [e|u'] eqn:Hs; [discriminate|].
  destruct (strip_slashes_prefix _ _ Hs) as [t ->].
  apply strip_slashes_spec in Hs as [Hlast Hne].
  destruct (Str.contains "http" u') eqn:Hc; simpl; intros [= <- <-].
  - repeat split; try assumption.
    intros Hu. rewrite (contains_app_l _ _ t Hc) in Hu. discriminate Hu.
  - repeat split.
    + destruct u'; discriminate.
    + rewrite last_app by assumption. assumption.
    + intros _. destruct u'; reflexivity.
Qed.

(** ** Loading *)

Lemma load_files_mismatch json_load (s : state) (content : string) :
  fs s !! path_join (directory (self s)) txt_path = Some content ->
  Str.readline content <> url (self s) ->
  exists s',
    load_files json_load s = (inr tt, s')
    /\ self s' = self s /\ fs s' = fs s /\ log s' = log s.
Proof.
  intros Hf Hne. unfold load_files, bind, get_self, open_read. simpl.
  rewrite Hf. case_decide; [|contradiction].
  unfold verbose_print, bind, get_self, print, modify. simpl.
  destruct (verbose (self s)) eqn:Hv; simpl; rewrite ?Hv; simpl;
    rewrite ?Hv; eexists; (split; [reflexivity|]); simpl; auto.
Qed.

(** Where the directory ends in a slash, the URL is a single line and the
    parser reads back what [json.dumps] wrote, [load_files] finds the jobs
    that [dump_all] saved. *)
Lemma saved_state_is_loaded
    (json_load : string -> exn + option snapshot) (s : state) :
  Str.last (directory (self s)) = Some Str.slash ->
  Str.readline (url (self s)) = url (self s) ->
  json_load (Json.dumps (jobs (self s))) = inr (jobs (self s)) ->
  exists s',
    load_files json_load (set_jobs None (snd (dump_all s))) = (inr tt, s')
    /\ jobs (self s') = jobs (self s).
Proof.
  intros Hl Hu Hj.
  assert (Hd : directory (self s) <> "") by (intros E; rewrite E in Hl; discriminate Hl).
  rewrite dump_all_run by assumption. simpl.
  assert (Htxt : saved_files (self s) (fs s)
                   !! path_join (directory (self s)) txt_path
                 = Some (url (self s))) by apply lookup_insert_eq.
  assert (Hjson : saved_files (self s) (fs s)
                    !! (directory (self s) +:+ json_path)
                  = Some (Json.dumps (jobs (self s)))).
  { rewrite <- (path_join_after_slash _ json_path Hl eq_refl).
    unfold saved_files.
    rewrite lookup_insert_ne by (apply not_eq_sym, json_txt_paths_differ).
    apply lookup_insert_eq. }
  unfold load_files, load_json, bind, get_self, open_read. simpl.
  rewrite Htxt, Hu. case_decide; [contradiction|].
  unfold verbose_print, bind, get_self, print, modify. simpl.
  destruct (verbose (self s)) eqn:Hv; simpl; rewrite Hjson, Hj; simpl;
    rewrite ?Hv; eexists; split; reflexivity.
Qed.

(** * The claims *)

(** C1. For every pair of indicators [old_color], [new_color] such that the
    new one carries the running marker ["anime"] and the old one does not,
    [status_change] dispatches [started] for the job and nothing else,
    whatever the outcome classes of the two indicators: in particular the
    rules for [aborted], [red] and [blue] are not consulted.  The value
    returned is that of [call "started"]. *)
Theorem started_takes_priority (name old_color new_color : string)
    (s : state) :
  Str.contains "anime" new_color = true ->
  Str.contains "anime" old_color = false ->
  new_color <> old_color
  /\ status_change name old_color new_color s = call "started" [AStr name] s
  /\ log (snd (status_change name old_color new_color s))
     = log s ++ [dispatch_of (self s) ("started", [AStr name])].
Proof.
  intros Hnew Hold. split; [congruence|].
  assert (H : status_change name old_color new_color s
              = call "started" [AStr name] s).
  { unfold status_change, bind, get_self. simpl. rewrite Hnew, Hold.
    reflexivity. }
  split; [exact H|]. rewrite H, call_run. reflexivity.
Qed.

(** A failed job whose build starts. *)
Lemma started_takes_priority_witness :
  (Str.contains "anime" "red_anime" = true
   /\ Str.contains "anime" "red" = false)
  /\ log (snd (status_change "A" "red" "red_anime"
                 (Sample.engine "" default_funcs (Some [("A", "red")]))))
     = [Dispatch "started" [AStr "A"] Returned].
Proof.
  split; [split; reflexivity|].
  pose proof (started_takes_priority "A" "red" "red_anime"
                (Sample.engine "" default_funcs (Some [("A", "red")]))
                eq_refl eq_refl) as [_ [_ H]].
  exact H.
Defined.

(** C2, as the code has it.  On a reconciliation without a prior snapshot
    ([self.jobs] is [None]) [update] adopts the new snapshot as current and
    makes no call to the sink and prints nothing, also when the new
    snapshot is not empty.  It writes the new state to the two files when
    the object has a directory; with the empty directory the files are left
    as they were. *)
Theorem first_run_adopts_silently (new_jobs : snapshot) (s : state) :
  jobs (self s) = None ->
  fst (update (inr new_jobs) s) = inr None
  /\ jobs (self (snd (update (inr new_jobs) s))) = Some new_jobs
  /\ log (snd (update (inr new_jobs) s)) = log s
  /\ stdout (snd (update (inr new_jobs) s)) = stdout s
  /\ (directory (self s) <> "" -> persisted (snd (update (inr new_jobs) s)))
  /\ (directory (self s) = "" -> fs (snd (update (inr new_jobs) s)) = fs s).
Proof.
  intros Hj. apply first_run_facts. rewrite Hj. reflexivity.
Qed.

(** A first run in the directory ["./"] with two jobs on the server. *)
Lemma first_run_adopts_silently_witness :
  jobs (self (Sample.engine "./" default_funcs None)) = None
  /\ persisted
       (snd (update (inr [("A", "blue"); ("B", "red")])
               (Sample.engine "./" default_funcs None)))
  /\ log (snd (update (inr [("A", "blue"); ("B", "red")])
                 (Sample.engine "./" default_funcs None))) = [].
Proof.
  split; [reflexivity|].
  pose proof (first_run_adopts_silently [("A", "blue"); ("B", "red")]
                (Sample.engine "./" default_funcs None) eq_refl)
    as (_ & _ & Hlog & _ & Hp & _).
  split; [apply Hp; discriminate | exact Hlog].
Defined.

(** C2, as the spec has it, fails for an object without a directory: the
    first reconciliation adopts the snapshot and writes no file. *)
Lemma first_run_without_directory_writes_nothing :
  jobs (self (Sample.engine "" default_funcs None)) = None
  /\ jobs (self (snd (update (inr [("A", "blue")])
                        (Sample.engine "" default_funcs None))))
     = Some [("A", "blue")]
  /\ fs (snd (update (inr [("A", "blue")])
                (Sample.engine "" default_funcs None))) = empty
  /\ ~ persisted (snd (update (inr [("A", "blue")])
                         (Sample.engine "" default_funcs None))).
Proof.
  split; [reflexivity|]. split; [reflexivity|]. split; [reflexivity|].
  intros [H _]. vm_compute in H. discriminate H.
Qed.

(** C3. [update] never returns the outcomes: its value is [None] in every
    cycle, although [offline_update] has built the dictionary of outcomes
    (here for a deleted job) and has made the call. *)
Theorem update_returns_no_outcomes :
  (forall (new_jobs : snapshot) (s : state),
     fst (update (inr new_jobs) s) = inr None)
  /\ fst (collect_changes [("A", "red")] []
            (Sample.engine "./" default_funcs (Some [("A", "red")])))
     = inr [("A", "deleted")]
  /\ log (snd (update (inr [])
                 (Sample.engine "./" default_funcs (Some [("A", "red")]))))
     = [Dispatch "deleted" [AStr "A"] Returned].
Proof.
  split; [|split; reflexivity].
  intros new_jobs s. destruct (jobs (self s)) as [old_jobs|] eqn:Hj.
  - destruct (not_jobs (Some old_jobs)) eqn:Hn.
    + rewrite update_first_run by (rewrite Hj; exact Hn). reflexivity.
    + rewrite (update_with_prior old_jobs) by assumption. reflexivity.
  - rewrite update_first_run by (rewrite Hj; reflexivity). reflexivity.
Qed.

(** C4. In the diff of a reconciliation, [offline_update] on an object
    with a prior snapshot, empty or not: a job that is in the old snapshot
    only is the subject of exactly one call, [deleted]; a job that is in
    the new snapshot only is the subject of exactly one call, [created]
    (and so of no build event); and every [deleted] call comes before
    every other call.  [update] makes these very calls whenever the prior
    snapshot is not empty. *)
Theorem one_event_per_lone_job (old_jobs new_jobs : snapshot) (s : state) :
  jobs (self s) = Some old_jobs ->
  NoDup (Dict.keys old_jobs) ->
  NoDup (Dict.keys new_jobs) ->
  exists gone rest,
    log (snd (offline_update new_jobs s)) = log s ++ gone ++ rest
    /\ (forall name,
          In name (Dict.keys old_jobs) -> ~ In name (Dict.keys new_jobs) ->
          List.filter (about name) (gone ++ rest)
          = [dispatch_of (self s) ("deleted", [AStr name])])
    /\ (forall name,
          In name (Dict.keys new_jobs) -> ~ In name (Dict.keys old_jobs) ->
          List.filter (about name) (gone ++ rest)
          = [dispatch_of (self s) ("created", [AStr name])])
    /\ Forall (fun d => d_func d = "deleted") gone
    /\ Forall (fun d => d_func d <> "deleted") rest
    /\ (old_jobs <> [] ->
        log (snd (update (inr new_jobs) s))
        = log (snd (offline_update new_jobs s))).
Proof.
  intros Hj Hold Hnew.
  rewrite (offline_update_run old_jobs new_jobs s Hj).
  simpl. unfold requests. rewrite map_app.
  set (v := verbose (self s)).
  exists (map (dispatch_of (self s))
            (deleted_requests (Dict.keys old_jobs) new_jobs)),
         (map (dispatch_of (self s)) (changed_requests v new_jobs old_jobs)).
  split; [reflexivity|]. split; [|split; [|split; [|split]]].
  - intros name Hin Hout.
    rewrite List.filter_app, !filter_dispatches.
    rewrite deleted_requests_one
      by first [assumption | apply mem_false; assumption].
    rewrite changed_requests_other; [reflexivity|].
    intros color Hc. exfalso. apply Hout.
    change (In name (map fst new_jobs)). apply (in_map fst) in Hc. exact Hc.
  - intros name Hin Hout.
    rewrite List.filter_app, !filter_dispatches.
    rewrite deleted_requests_other by (left; assumption).
    rewrite changed_requests_created
      by first [assumption | apply get_None; assumption].
    reflexivity.
  - apply List.Forall_map.
    eapply List.Forall_impl; [|apply deleted_requests_func]. auto.
  - apply List.Forall_map.
    eapply List.Forall_impl; [|apply changed_requests_func]. auto.
  - intros Hne.
    rewrite (update_with_prior old_jobs) by
      first [assumption | destruct old_jobs; [contradiction | reflexivity]].
    simpl. rewrite persist_log. simpl. unfold requests, v.
    rewrite map_app. reflexivity.
Qed.

(** Job [A] is gone, job [C] is new, job [B] is unchanged. *)
Lemma one_event_per_lone_job_witness :
  (NoDup (Dict.keys [("A", "red"); ("B", "blue")])
   /\ NoDup (Dict.keys [("B", "blue"); ("C", "grey")]))
  /\ exists gone rest,
       log (snd (offline_update [("B", "blue"); ("C", "grey")]
                   (Sample.engine "./" default_funcs
                      (Some [("A", "red"); ("B", "blue")]))))
       = [] ++ gone ++ rest
       /\ (forall name,
             In name (Dict.keys [("A", "red"); ("B", "blue")]) ->
             ~ In name (Dict.keys [("B", "blue"); ("C", "grey")]) ->
             List.filter (about name) (gone ++ rest)
             = [dispatch_of (MkJenkins Sample.server false false "./"
                               default_funcs
                               (Some [("A", "red"); ("B", "blue")]))
                  ("deleted", [AStr name])])
       /\ (forall name,
             In name (Dict.keys [("B", "blue"); ("C", "grey")]) ->
             ~ In name (Dict.keys [("A", "red"); ("B", "blue")]) ->
             List.filter (about name) (gone ++ rest)
             = [dispatch_of (MkJenkins Sample.server false false "./"
                               default_funcs
                               (Some [("A", "red"); ("B", "blue")]))
                  ("created", [AStr name])])
       /\ Forall (fun d => d_func d = "deleted") gone
       /\ Forall (fun d => d_func d <> "deleted") rest
       /\ ([("A", "red"); ("B", "blue")] <> [] ->
           log (snd (update (inr [("B", "blue"); ("C", "grey")])
                       (Sample.engine "./" default_funcs
                          (Some [("A", "red"); ("B", "blue")]))))
           = log (snd (offline_update [("B", "blue"); ("C", "grey")]
                         (Sample.engine "./" default_funcs
                            (Some [("A", "red"); ("B", "blue")]))))).
Proof.
  split.
  - split; refine (bool_decide_unpack _ _); vm_compute; exact I.
  - apply (one_event_per_lone_job
             [("A", "red"); ("B", "blue")] [("B", "blue"); ("C", "grey")]
             (Sample.engine "./" default_funcs
                (Some [("A", "red"); ("B", "blue")]))).
    + reflexivity.
    + refine (bool_decide_unpack _ _); vm_compute; exact I.
    + refine (bool_decide_unpack _ _); vm_compute; exact I.
Defined.

(** C5. Reconciling a snapshot against itself makes no call to the sink;
    more generally a job that is in both snapshots with the same colour is
    the subject of no call. *)
Theorem unchanged_jobs_are_silent (old_jobs new_jobs : snapshot)
    (s : state) :
  jobs (self s) = Some old_jobs ->
  NoDup (Dict.keys new_jobs) ->
  exists events,
    log (snd (update (inr new_jobs) s)) = log s ++ events
    /\ (forall name color,
          Dict.get name old_jobs = Some color -> In (name, color) new_jobs ->
          List.filter (about name) events = [])
    /\ (new_jobs = old_jobs -> events = []).
Proof.
  intros Hj Hnew. destruct (not_jobs (Some old_jobs)) eqn:Hn.
  - exists []. rewrite update_first_run by (rewrite Hj; exact Hn).
    simpl. rewrite persist_log, app_nil_r. simpl. auto.
  - rewrite (update_with_prior old_jobs) by assumption.
    simpl. rewrite persist_log. simpl.
    eexists. split; [reflexivity|]. split.
    + intros name color Hg Hin. unfold requests.
      rewrite filter_dispatches, List.filter_app.
      rewrite deleted_requests_other.
      * rewrite changed_requests_other; [reflexivity|].
        intros color' Hc.
        pose proof (get_In name color new_jobs Hnew Hin) as H1.
        pose proof (get_In name color' new_jobs Hnew Hc) as H2.
        congruence.
      * right. unfold Dict.mem.
        rewrite (get_In name color new_jobs Hnew Hin). reflexivity.
    + intros ->. rewrite requests_same by assumption. reflexivity.
Qed.

(** Two jobs, reported again with the same colours. *)
Lemma unchanged_jobs_are_silent_witness :
  NoDup (Dict.keys [("A", "blue"); ("B", "red")])
  /\ exists events,
       log (snd (update (inr [("A", "blue"); ("B", "red")])
                   (Sample.engine "./" default_funcs
                      (Some [("A", "blue"); ("B", "red")]))))
       = [] ++ events
       /\ (forall name color,
             Dict.get name [("A", "blue"); ("B", "red")] = Some color ->
             In (name, color) [("A", "blue"); ("B", "red")] ->
             List.filter (about name) events = [])
       /\ ([("A", "blue"); ("B", "red")] = [("A", "blue"); ("B", "red")] ->
           events = []).
Proof.
  split.
  - refine (bool_decide_unpack _ _); vm_compute; exact I.
  - apply (unchanged_jobs_are_silent
             [("A", "blue"); ("B", "red")] [("A", "blue"); ("B", "red")]
             (Sample.engine "./" default_funcs
                (Some [("A", "blue"); ("B", "red")]))).
    + reflexivity.
    + refine (bool_decide_unpack _ _); vm_compute; exact I.
Defined.

(** C6. A handler that raises does not stop the cycle: the marker is the
    outcome recorded for its job, the other job is still dispatched, the
    new state is written and [update] returns normally.  The value it
    returns is [None], so that the marker does not reach the caller. *)
Theorem handler_failure_is_isolated_and_not_returned :
  fst (collect_changes Sample.two_jobs [("B", "red")] Sample.broken_engine)
  = inr [("A", function_error); ("B", "failed")]
  /\ fst (update (inr [("B", "red")]) Sample.broken_engine) = inr None
  /\ log (snd (update (inr [("B", "red")]) Sample.broken_engine))
     = [Dispatch "deleted" [AStr "A"] Raised;
        Dispatch "failed" [AStr "B"] Returned]
  /\ stdout (snd (update (inr [("B", "red")]) Sample.broken_engine))
     = ["Function call failed: deleted(A)"; "Build failed: B"]
  /\ jobs (self (snd (update (inr [("B", "red")]) Sample.broken_engine)))
     = Some [("B", "red")]
  /\ persisted (snd (update (inr [("B", "red")]) Sample.broken_engine)).
Proof.
  repeat split; vm_compute; reflexivity.
Qed.

(** C7. When the first line of the server file of the directory differs
    from the identity the object is constructed with, [__init__] leaves
    [self.jobs] at [None] whatever the jobs file holds, and the next
    [update] is a first run: no call to the sink, the new snapshot adopted
    and written to the two files. *)
Theorem identity_mismatch_discards_history
    (json_load : string -> exn + option snapshot)
    (url_arg input_file : option string) (v : bool) (dir : string)
    (table : gmap string handler) (files : gmap string string)
    (u : string) (off : bool) (content : string) :
  init_url url_arg input_file = inr (u, off) ->
  dir <> "" ->
  files !! path_join dir txt_path = Some content ->
  Str.readline content <> u ->
  exists s,
    init json_load url_arg input_file v dir table files = inr s
    /\ url (self s) = u
    /\ jobs (self s) = None
    /\ fs s = files
    /\ forall new_jobs,
         fst (update (inr new_jobs) s) = inr None
         /\ jobs (self (snd (update (inr new_jobs) s))) = Some new_jobs
         /\ log (snd (update (inr new_jobs) s)) = []
         /\ persisted (snd (update (inr new_jobs) s)).
Proof.
  intros Hu Hd Hf Hne. unfold init. rewrite Hu.
  destruct (String.eqb_spec dir ""); [contradiction|]. simpl.
  unfold try_load_files.
  destruct (load_files_mismatch json_load
              (MkState (MkJenkins u off v dir table None) files [] [])
              content Hf Hne) as (s' & Hl & Hself & Hfs & Hlog).
  rewrite Hl. exists s'. rewrite Hself, Hfs. simpl.
  repeat split; try reflexivity; intros;
    destruct (first_run_facts new_jobs s')
      as (H1 & H2 & H3 & _ & H5 & _);
    try (rewrite Hself; reflexivity); try assumption.
  - rewrite H3. exact Hlog.
  - apply H5. rewrite Hself. exact Hd.
  - apply H5. rewrite Hself. exact Hd.
Qed.

(** A directory written for another server, with a job in its jobs file. *)
Lemma identity_mismatch_discards_history_witness :
  exists s,
    init (Sample.load_known [Some [("A", "red")]])
      (Some "ci.example.com/") None false "./" default_funcs
      (<["./jenkins_server.txt" := "https://old.example.com"]>
         (<["./jenkins_jobs.json" := Json.dumps (Some [("A", "red")])]>
            empty))
    = inr s
    /\ url (self s) = "https://ci.example.com"
    /\ jobs (self s) = None
    /\ fs s = <["./jenkins_server.txt" := "https://old.example.com"]>
                (<["./jenkins_jobs.json" := Json.dumps (Some [("A", "red")])]>
                   empty)
    /\ forall new_jobs,
         fst (update (inr new_jobs) s) = inr None
         /\ jobs (self (snd (update (inr new_jobs) s))) = Some new_jobs
         /\ log (snd (update (inr new_jobs) s)) = []
         /\ persisted (snd (update (inr new_jobs) s)).
Proof.
  apply (identity_mismatch_discards_history _ _ _ _ _ _ _ _ false
           "https://old.example.com").
  - reflexivity.
  - discriminate.
  - reflexivity.
  - discriminate.
Defined.

(** C8. In the directory ["."] [dump_all] writes the jobs to
    ["./jenkins_jobs.json"] and [load_files] looks for them in
    [".jenkins_jobs.json"]: the state saved is not read back, and an object
    constructed on the saved files has no snapshot. *)
Theorem saved_in_dot_directory_is_not_loaded
    (json_load : string -> exn + option snapshot) :
  fs (snd (dump_all Sample.dot_engine)) !! "./jenkins_jobs.json"
  = Some (Json.dumps (Some [("A", "blue")]))
  /\ fs (snd (dump_all Sample.dot_engine)) !! "./jenkins_server.txt"
     = Some Sample.server
  /\ fst (load_files json_load
            (set_jobs None (snd (dump_all Sample.dot_engine))))
     = inl FileNotFoundError
  /\ exists s,
       init json_load (Some Sample.server) None false "." default_funcs
         (fs (snd (dump_all Sample.dot_engine))) = inr s
       /\ jobs (self s) = None.
Proof.
  split; [reflexivity|]. split; [reflexivity|]. split; [reflexivity|].
  eexists. split; reflexivity.
Qed.

(** C9. A URL that contains ["http"] elsewhere than in a scheme is taken
    as it is: the identity has no scheme.  A URL without ["http"] gets
    one. *)
Theorem url_containing_http_gets_no_scheme :
  init_url (Some "myhttp.example.com") None
  = inr ("myhttp.example.com", false)
  /\ begins_with_scheme "myhttp.example.com" = false
  /\ init_url (Some "ci.example.com/") None
     = inr ("https://ci.example.com", false)
  /\ begins_with_scheme "https://ci.example.com" = true.
Proof. repeat split; reflexivity. Qed.


(** C10. When the current snapshot is the empty dictionary, [update] does
    what it does without a snapshot: the two runs end in the same state
    with the same value, the new snapshot is adopted, no call is made to
    the sink, and so no job of the new snapshot is reported as created. *)
Theorem empty_snapshot_counts_as_none (new_jobs : snapshot) (s : state) :
  jobs (self s) = Some [] ->
  update (inr new_jobs) s = update (inr new_jobs) (set_jobs None s)
  /\ fst (update (inr new_jobs) s) = inr None
  /\ jobs (self (snd (update (inr new_jobs) s))) = Some new_jobs
  /\ log (snd (update (inr new_jobs) s)) = log s
  /\ stdout (snd (update (inr new_jobs) s)) = stdout s.
Proof.
  intros Hj.
  rewrite (update_first_run new_jobs s) by (rewrite Hj; reflexivity).
  rewrite (update_first_run new_jobs (set_jobs None s)) by reflexivity.
  simpl. rewrite persist_self, persist_log, persist_stdout.
  repeat split; reflexivity.
Qed.

(** A server without jobs on which a first job appears. *)
Lemma empty_snapshot_counts_as_none_witness :
  jobs (self (Sample.engine "./" default_funcs (Some []))) = Some []
  /\ log (snd (update (inr [("A", "blue")])
                 (Sample.engine "./" default_funcs (Some [])))) = []
  /\ jobs (self (snd (update (inr [("A", "blue")])
                        (Sample.engine "./" default_funcs (Some [])))))
     = Some [("A", "blue")].
Proof.
  split; [reflexivity|].
  pose proof (empty_snapshot_counts_as_none [("A", "blue")]
                (Sample.engine "./" default_funcs (Some [])) eq_refl)
    as (_ & _ & Hjobs & Hlog & _).
  split; [exact Hlog | exact Hjobs].
Defined.

(** * Further properties *)

(** ** The identity computed by the constructor *)

Lemma only_slashes_app (a b : string) :
  only_slashes (a +:+ b) = only_slashes a && only_slashes b.
Proof.
  induction a as [|c a IH]; [reflexivity|].
  rewrite app_cons. simpl. rewrite IH, andb_assoc. reflexivity.
Qed.

Lemma only_slashes_last (u : string) (c : ascii) :
  Str.last u = Some c ->
  only_slashes u = only_slashes (Str.drop_last u) && Ascii.eqb c Str.slash.
Proof.
  intros H. rewrite (drop_last_app u c H) at 1.
  rewrite only_slashes_app. simpl. rewrite andb_true_r. reflexivity.
Qed.

Lemma strip_slashes_inl (u : string) (e : exn) :
  strip_slashes u = inl e -> e = IndexError /\ only_slashes u = true.
Proof.
  funelim (strip_slashes u).
  - case_decide as Hc; [|discriminate].
    intros He. destruct (H0 Hc e He) as [-> Hs]. split; [reflexivity|].
    rewrite (only_slashes_last _ _ H), Hs, Hc. reflexivity.
  - intros [= <-]. split; [reflexivity|].
    destruct url0 as [|a [|b r]]; [reflexivity|discriminate e|].
    exfalso. clear -e. revert a b e.
    induction r as [|x r IH]; intros a b e; [discriminate e|].
    apply (IH b x). exact e.
Qed.

Lemma strip_slashes_inr (u v : string) :
  strip_slashes u = inr v -> only_slashes u = false.
Proof.
  funelim (strip_slashes u).
  - case_decide as Hc.
    + intros Hv. rewrite (only_slashes_last _ _ H), (H0 Hc v Hv). reflexivity.
    + intros _. rewrite (only_slashes_last _ _ H).
      destruct (Ascii.eqb_spec c Str.slash); [contradiction|].
      apply andb_false_r.
  - discriminate.
Qed.

Lemma strip_slashes_kept (v : string) (c : ascii) :
  Str.last v = Some c -> c <> Str.slash -> strip_slashes v = inr v.
Proof.
  intros Hl Hc. funelim (strip_slashes v).
  - rewrite H in Hl. injection Hl as ->.
    case_decide; [contradiction | reflexivity].
  - congruence.
Qed.

Lemma last_nonempty (v : string) : v <> "" -> exists c, Str.last v = Some c.
Proof.
  induction v as [|a v IH]; [contradiction|]. intros _.
  destruct v as [|b v]; [exists a; reflexivity|].
  destruct IH as [c Hc]; [discriminate|]. exists c. exact Hc.
Qed.

(** A host name with two slashes behind it. *)
Lemma init_url_identity_witness :
  init_url (Some "ci.example.com//") None
  = inr ("https://ci.example.com", false)
  /\ ("https://ci.example.com" <> ""
      /\ Str.last "https://ci.example.com" <> Some Str.slash
      /\ Str.contains "http" "https://ci.example.com" = true
      /\ false = false
      /\ (Str.contains "http" "ci.example.com//" = false ->
          String.prefix "https://" "https://ci.example.com" = true)).
Proof.
  split; [reflexivity|].
  apply (init_url_identity "ci.example.com//" "https://ci.example.com" false).
  reflexivity.
Defined.

(** X2. The first statements of the constructor fail on a URL exactly
    when the URL is made of slashes only (the empty URL included), and then
    with [IndexError]: the loop strips every character and indexes the
    empty string.  So the constructor raises [IndexError] on such a URL
    whatever the directory and the files are, and a constructor without
    directory, which reads no file, succeeds on every other URL. *)
Theorem constructor_fails_on_slashes
    (json_load : string -> exn + option snapshot) (u : string)
    (input_file : option string) (v : bool) (table : gmap string handler)
    (files : gmap string string) :
  (forall e,
     init_url (Some u) input_file = inl e
     <-> e = IndexError /\ only_slashes u = true)
  /\ (only_slashes u = true ->
      forall dir,
        init json_load (Some u) input_file v dir table files
        = inl IndexError)
  /\ (only_slashes u = false ->
      exists s,
        init json_load (Some u) input_file v "" table files = inr s
        /\ jobs (self s) = None /\ fs s = files /\ log s = []).
Proof.
  unfold init, init_url. destruct (strip_slashes u) as [e'|w] eqn:Hs.
  - apply strip_slashes_inl in Hs as [-> Hs]. split; [|split].
    + intros e. split.
      * intros [= <-]. auto.
      * intros [-> _]. reflexivity.
    + reflexivity.
    + congruence.
  - apply strip_slashes_inr in Hs. split; [|split].
    + intros e. split; [discriminate|]. intros [_ H]. congruence.
    + congruence.
    + intros _. simpl. eexists. split; [reflexivity|]. auto.
Qed.

(** Three slashes, in a directory with files. *)
Lemma constructor_fails_on_slashes_witness :
  only_slashes "///" = true
  /\ init (Sample.load_known []) (Some "///") None false "./" default_funcs
       (<["./jenkins_server.txt" := "https://ci.example.com"]> empty)
     = inl IndexError.
Proof.
  split; [reflexivity|].
  destruct (constructor_fails_on_slashes (Sample.load_known []) "///" None
              false default_funcs
              (<["./jenkins_server.txt" := "https://ci.example.com"]> empty))
    as (_ & H & _).
  apply (H eq_refl "./").
Defined.

(** X3. Constructing with an identity that a constructor computed gives
    the same identity again: nothing more is stripped and no second scheme
    is added. *)
Theorem init_url_idempotent (u v : string) (off : bool)
    (input_file input_file' : option string) :
  init_url (Some u) input_file = inr (v, off) ->
  init_url (Some v) input_file' = inr (v, false).
Proof.
  unfold init_url. destruct (strip_slashes u) as [e|u'] eqn:Hs; [discriminate|].
  apply strip_slashes_spec in Hs as [Hlast Hne].
  destruct (last_nonempty u' Hne) as [c Hc].
  assert (Hslash : c <> Str.slash) by congruence.
  destruct (Str.contains "http" u') eqn:Hh; simpl; intros [= <- <-].
  - rewrite (strip_slashes_kept u' c Hc Hslash), Hh. reflexivity.
  - rewrite (strip_slashes_kept ("https://" +:+ u') c)
      by (try assumption; rewrite last_app; assumption).
    destruct u'; reflexivity.
Qed.

Lemma init_url_idempotent_witness :
  init_url (Some "ci.example.com//") None
  = inr ("https://ci.example.com", false)
  /\ init_url (Some "https://ci.example.com") None
     = inr ("https://ci.example.com", false).
Proof.
  split; [reflexivity|].
  apply (init_url_idempotent "ci.example.com//" "https://ci.example.com"
           false None None).
  reflexivity.
Defined.

(** ** Construction on a directory *)

Lemma readline_single_line (u : string) :
  single_line u = true -> Str.readline u = u.
Proof.
  induction u as [|c u IH]; [reflexivity|]. simpl.
  intros H. apply andb_true_iff in H as [H Hu].
  apply andb_true_iff in H as [Hn Hr].
  destruct (Ascii.eqb_spec c Str.newline); [discriminate|].
  destruct (Ascii.eqb_spec c Str.carriage_return); [discriminate|].
  repeat (case_decide; [contradiction|]). rewrite (IH Hu). reflexivity.
Qed.



(** [load_files] when the server file agrees with the object: what the
    jobs file gives. *)
Lemma load_files_match json_load (t : state) (content : string) :
  fs t !! path_join (directory (self t)) txt_path = Some content ->
  Str.readline content = url (self t) ->
  match fs t !! (directory (self t) +:+ json_path) with
  | None =>
      exists t', load_files json_load t = (inl FileNotFoundError, t')
        /\ self t' = self t /\ fs t' = fs t /\ log t' = log t
  | Some text =>
      match json_load text with
      | inl e => exists t', load_files json_load t = (inl e, t')
      | inr d =>
          exists t', load_files json_load t = (inr tt, t')
            /\ self t' = self (set_jobs d t) /\ fs t' = fs t
            /\ log t' = log t
      end
  end.
Proof.
  intros Hf Hu. unfold load_files, load_json, bind, get_self, open_read.
  simpl. rewrite Hf. case_decide; [contradiction|].
  unfold verbose_print, bind, get_self, print, modify. simpl.
  destruct (fs t !! (directory (self t) +:+ json_path)) as [text|] eqn:Hj.
  - destruct (json_load text) as [e|d] eqn:Hl;
      destruct (verbose (self t)) eqn:Hv; simpl; rewrite Hj, Hl; simpl;
      rewrite ?Hv; eexists; try (split; [reflexivity|]); simpl;
      rewrite ?Hv; auto.
  - destruct (verbose (self t)) eqn:Hv; simpl; rewrite Hj;
      eexists; (split; [reflexivity|]); simpl; auto.
Qed.


(** The state in which [update] ends. *)
Lemma update_state (new_jobs : snapshot) (s : state) :
  exists after,
    update (inr new_jobs) s
    = (inr None, persist (set_jobs (Some new_jobs) after))
    /\ self after = self s /\ fs after = fs s.
Proof.
  destruct (jobs (self s)) as [old_jobs|] eqn:Hj.
  - destruct (not_jobs (Some old_jobs)) eqn:Hn.
    + exists s. rewrite update_first_run by (rewrite Hj; exact Hn). auto.
    + eexists. rewrite (update_with_prior old_jobs) by assumption.
      split; [reflexivity|]. split; reflexivity.
  - exists s. rewrite update_first_run by (rewrite Hj; reflexivity). auto.
Qed.

Lemma update_files (new_jobs : snapshot) (s : state) :
  directory (self s) <> "" ->
  fs (snd (update (inr new_jobs) s))
  = <[path_join (directory (self s)) txt_path := url (self s)]>
      (<[path_join (directory (self s)) json_path
         := Json.dumps (Some new_jobs)]> (fs s)).
Proof.
  intros Hd. destruct (update_state new_jobs s) as (after & -> & Hs & Hf).
  destruct after as [j f l o]. simpl in Hs, Hf. subst j f.
  unfold persist, saved_files. simpl.
  destruct (String.eqb_spec (directory (self s)) ""); [contradiction|].
  reflexivity.
Qed.

Lemma last_slash_nonempty (dir : string) :
  Str.last dir = Some Str.slash -> dir <> "".
Proof. intros H ->. discriminate H. Qed.

Lemma eqb_nonempty (dir : string) :
  dir <> "" -> negb (String.eqb dir "") = true.
Proof. intros H. destruct (String.eqb_spec dir ""); [contradiction|reflexivity]. Qed.

(** X4. A cycle in a directory whose name ends in a slash, for a URL
    without line break, leaves files from which a new object for the same
    server starts with the snapshot of that cycle, provided the parser
    reads back what [json.dumps] wrote. *)
Theorem restart_resumes_from_saved_snapshot
    (json_load : string -> exn + option snapshot)
    (url_arg input_file : option string) (v : bool)
    (table : gmap string handler) (new_jobs : snapshot) (s : state)
    (off : bool) :
  init_url url_arg input_file = inr (url (self s), off) ->
  Str.last (directory (self s)) = Some Str.slash ->
  single_line (url (self s)) = true ->
  json_load (Json.dumps (Some new_jobs)) = inr (Some new_jobs) ->
  exists s',
    init json_load url_arg input_file v (directory (self s)) table
      (fs (snd (update (inr new_jobs) s))) = inr s'
    /\ jobs (self s') = Some new_jobs
    /\ url (self s') = url (self s)
    /\ log s' = [].
Proof.
  intros Hu Hl Hs Hj. pose proof (last_slash_nonempty _ Hl) as Hd.
  unfold init. rewrite Hu, (eqb_nonempty _ Hd).
  set (files := fs (snd (update (inr new_jobs) s))).
  set (t := MkState
              (MkJenkins (url (self s)) off v (directory (self s)) table None)
              files [] []).
  assert (Hfiles : files = _) by apply (update_files new_jobs s Hd).
  pose proof (load_files_match json_load t (url (self s))) as H.
  simpl in H.
  assert (Ht : files !! path_join (directory (self s)) txt_path
               = Some (url (self s)))
    by (rewrite Hfiles; apply lookup_insert_eq).
  assert (Hjs : files !! (directory (self s) +:+ json_path)
                = Some (Json.dumps (Some new_jobs))).
  { rewrite Hfiles, <- (path_join_after_slash _ json_path Hl eq_refl).
    rewrite lookup_insert_ne by (apply not_eq_sym, json_txt_paths_differ).
    apply lookup_insert_eq. }
  rewrite Hjs, Hj in H.
  destruct (H Ht (readline_single_line _ Hs)) as (t' & Hload & Hself & _ & Hlog).
  unfold try_load_files. rewrite Hload. exists t'.
  split; [reflexivity|]. rewrite Hself, Hlog. auto.
Qed.

Lemma restart_resumes_from_saved_snapshot_witness :
  exists s',
    init (Sample.load_known [Some [("A", "blue")]])
      (Some "ci.example.com") None false "./" default_funcs
      (fs (snd (update (inr [("A", "blue")])
                  (Sample.engine "./" default_funcs None)))) = inr s'
    /\ jobs (self s') = Some [("A", "blue")]
    /\ url (self s') = Sample.server
    /\ log s' = [].
Proof.
  apply (restart_resumes_from_saved_snapshot
           (Sample.load_known [Some [("A", "blue")]])
           (Some "ci.example.com") None false default_funcs [("A", "blue")]
           (Sample.engine "./" default_funcs None) false);
    reflexivity.
Defined.





(** X7. When the server file agrees with the object and the jobs file is
    there but the parser raises, the exception leaves the constructor: only
    [FileNotFoundError] is caught. *)
Theorem construction_fails_on_bad_jobs_file
    (json_load : string -> exn + option snapshot)
    (url_arg input_file : option string) (v : bool) (dir : string)
    (table : gmap string handler) (files : gmap string string)
    (u : string) (off : bool) (content text : string) (e : exn) :
  init_url url_arg input_file = inr (u, off) ->
  dir <> "" ->
  files !! path_join dir txt_path = Some content ->
  Str.readline content = u ->
  files !! (dir +:+ json_path) = Some text ->
  json_load text = inl e ->
  e <> FileNotFoundError ->
  init json_load url_arg input_file v dir table files = inl e.
Proof.
  intros Hu Hd Hf Hr Hj Hl He. unfold init. rewrite Hu, (eqb_nonempty _ Hd).
  set (t := MkState (MkJenkins u off v dir table None) files [] []).
  pose proof (load_files_match json_load t content Hf Hr) as H.
  simpl in H. rewrite Hj, Hl in H. destruct H as [t' Hload].
  unfold try_load_files. rewrite Hload.
  destruct e; try reflexivity. contradiction.
Qed.

Lemma construction_fails_on_bad_jobs_file_witness :
  init (Sample.load_known []) (Some "ci.example.com") None false "./"
    default_funcs
    (<["./jenkins_server.txt" := "https://ci.example.com"]>
       (<["./jenkins_jobs.json" := "{"]> empty))
  = inl JSONDecodeError.
Proof.
  apply (construction_fails_on_bad_jobs_file (Sample.load_known [])
           (Some "ci.example.com") None false "./" default_funcs _
           "https://ci.example.com" false "https://ci.example.com" "{");
    try reflexivity; discriminate.
Defined.

(** ** The cycle as a whole *)

(** X8. When the fetch raises, [update] passes the exception on and leaves
    the object, the files and the log as they were. *)
Theorem failed_fetch_changes_nothing (e : exn) (s : state) :
  update (inl e) s = (inl e, s).
Proof.
  unfold update, bind, get_self, internal_get. simpl.
  destruct (not_jobs (jobs (self s))); reflexivity.
Qed.

(** X9. [dump_all] does not raise, keeps the object and the log, and
    changes no file other than the two of the directory. *)
Theorem dump_all_touches_two_files (s : state) :
  fst (dump_all s) = inr tt
  /\ self (snd (dump_all s)) = self s
  /\ log (snd (dump_all s)) = log s
  /\ forall path,
       path <> path_join (directory (self s)) json_path ->
       path <> path_join (directory (self s)) txt_path ->
       fs (snd (dump_all s)) !! path = fs s !! path.
Proof.
  unfold dump_all, get_jobs_json, write_file, bind, get_self, ret, print,
    modify. simpl.
  destruct (Str.contains "/" (path_join (directory (self s)) json_path));
    destruct (Str.contains "/" (path_join (directory (self s)) txt_path));
    simpl; repeat split; intros path H1 H2;
    rewrite ?lookup_insert_ne by (apply not_eq_sym; assumption);
    reflexivity.
Qed.

(** X10. Called on an object whose directory is the empty string,
    [dump_all] writes nothing: [os.makedirs] raises for the empty directory
    name, and [write_file] reports both files as not written. *)
Theorem dump_all_without_directory (s : state) :
  directory (self s) = "" ->
  fs (snd (dump_all s)) = fs s
  /\ stdout (snd (dump_all s))
     = stdout s ++ ["Could not write to 'jenkins_jobs.json'";
                    "Could not write to 'jenkins_server.txt'"].
Proof.
  intros Hd.
  unfold dump_all, get_jobs_json, write_file, bind, get_self, ret, print,
    modify. simpl. rewrite Hd. simpl. rewrite <- app_assoc. auto.
Qed.

Lemma dump_all_without_directory_witness :
  fs (snd (dump_all (Sample.engine "" default_funcs (Some [("A", "blue")]))))
  = empty
  /\ stdout (snd (dump_all
                    (Sample.engine "" default_funcs (Some [("A", "blue")]))))
     = [] ++ ["Could not write to 'jenkins_jobs.json'";
              "Could not write to 'jenkins_server.txt'"].
Proof.
  apply (dump_all_without_directory
           (Sample.engine "" default_funcs (Some [("A", "blue")]))).
  reflexivity.
Defined.

Lemma update_log (new_jobs : snapshot) (s : state) :
  log (snd (update (inr new_jobs) s))
  = log s ++ map (dispatch_of (self s))
               (cycle_requests (verbose (self s)) (jobs (self s)) new_jobs).
Proof.
  destruct (jobs (self s)) as [[|item old_jobs]|] eqn:Hj.
  - rewrite update_first_run by (rewrite Hj; reflexivity).
    simpl. rewrite persist_log, app_nil_r. reflexivity.
  - rewrite (update_with_prior (item :: old_jobs)) by (assumption || reflexivity).
    simpl. rewrite persist_log. reflexivity.
  - rewrite update_first_run by (rewrite Hj; reflexivity).
    simpl. rewrite persist_log, app_nil_r. reflexivity.
Qed.

Lemma update_self (new_jobs : snapshot) (s : state) :
  self (snd (update (inr new_jobs) s))
  = MkJenkins (url (self s)) (offline (self s)) (verbose (self s))
      (directory (self s)) (funcs (self s)) (Some new_jobs).
Proof.
  destruct (update_state new_jobs s) as (after & -> & Hs & _).
  simpl. rewrite persist_self. simpl. rewrite Hs. reflexivity.
Qed.

Lemma update_files_all (new_jobs : snapshot) (s : state) :
  fs (snd (update (inr new_jobs) s))
  = fs (persist (set_jobs (Some new_jobs) s)).
Proof.
  destruct (update_state new_jobs s) as (after & -> & Hs & Hf).
  destruct after as [j f l o]. simpl in Hs, Hf. subst j f.
  unfold persist. simpl. destruct (negb _); reflexivity.
Qed.

Lemma update_value (new_jobs : snapshot) (s : state) :
  fst (update (inr new_jobs) s) = inr None.
Proof.
  destruct (update_state new_jobs s) as (after & -> & _). reflexivity.
Qed.

Lemma cycle_requests_same (v : bool) (d : snapshot) :
  NoDup (Dict.keys d) -> cycle_requests v (Some d) d = [].
Proof.
  intros Hnd. destruct d as [|item d]; [reflexivity|].
  apply requests_same. assumption.
Qed.

(** X11. A second cycle in which the server reports the same jobs makes
    no call: what a cycle has reported is not reported again. *)
Theorem repeated_snapshot_is_silent (new_jobs : snapshot) (s : state) :
  NoDup (Dict.keys new_jobs) ->
  log (snd (update (inr new_jobs) (snd (update (inr new_jobs) s))))
  = log (snd (update (inr new_jobs) s))
  /\ jobs (self (snd (update (inr new_jobs) (snd (update (inr new_jobs) s)))))
     = Some new_jobs.
Proof.
  intros Hnd. split.
  - rewrite (update_log new_jobs (snd (update (inr new_jobs) s))).
    rewrite (update_self new_jobs s). cbn [jobs verbose].
    rewrite cycle_requests_same by assumption. apply app_nil_r.
  - rewrite update_self. reflexivity.
Qed.

Lemma repeated_snapshot_is_silent_witness :
  NoDup (Dict.keys [("B", "blue"); ("C", "grey")])
  /\ log (snd (update (inr [("B", "blue"); ("C", "grey")])
                 (snd (update (inr [("B", "blue"); ("C", "grey")])
                         (Sample.engine "./" default_funcs
                            (Some Sample.two_jobs))))))
     = log (snd (update (inr [("B", "blue"); ("C", "grey")])
                   (Sample.engine "./" default_funcs
                      (Some Sample.two_jobs))))
  /\ jobs (self (snd (update (inr [("B", "blue"); ("C", "grey")])
                        (snd (update (inr [("B", "blue"); ("C", "grey")])
                                (Sample.engine "./" default_funcs
                                   (Some Sample.two_jobs)))))))
     = Some [("B", "blue"); ("C", "grey")].
Proof.
  split.
  - refine (bool_decide_unpack _ _); vm_compute; exact I.
  - apply (repeated_snapshot_is_silent [("B", "blue"); ("C", "grey")]
             (Sample.engine "./" default_funcs (Some Sample.two_jobs))).
    refine (bool_decide_unpack _ _); vm_compute; exact I.
Defined.

(** X12. The calls that a cycle attempts, the files it writes, the
    snapshot it adopts and its value do not depend on the handlers: a sink
    that fails changes the outcomes in the log and nothing else. *)
Theorem cycle_does_not_depend_on_handlers (table : gmap string handler)
    (new_jobs : snapshot) (s : state) :
  map request_of (log (snd (update (inr new_jobs) (set_funcs table s))))
  = map request_of (log (snd (update (inr new_jobs) s)))
  /\ fs (snd (update (inr new_jobs) (set_funcs table s)))
     = fs (snd (update (inr new_jobs) s))
  /\ jobs (self (snd (update (inr new_jobs) (set_funcs table s))))
     = jobs (self (snd (update (inr new_jobs) s)))
  /\ fst (update (inr new_jobs) (set_funcs table s))
     = fst (update (inr new_jobs) s).
Proof.
  repeat split.
  - rewrite !update_log, !map_app, !map_map. reflexivity.
  - rewrite !update_files_all. unfold persist. simpl.
    destruct (negb _); reflexivity.
  - rewrite !update_self. reflexivity.
  - rewrite !update_value. reflexivity.
Qed.

(** ** The calls of a cycle, job by job *)

Lemma changed_requests_changed (v : bool) (name old_color new_color : string)
    items old_jobs :
  NoDup (Dict.keys items) -> In (name, new_color) items ->
  Dict.get name old_jobs = Some old_color -> new_color <> old_color ->
  List.filter (request_about name) (changed_requests v items old_jobs)
  = [status_request v name old_color new_color].
Proof.
  intros Hnd Hin Hg Hne. induction items as [|[n c] items IH]; [destruct Hin|].
  simpl in *. apply NoDup_cons in Hnd as [Hn Hnd].
  rewrite list_elem_of_In in Hn.
  destruct Hin as [[= -> ->]|Hin].
  - rewrite Hg. case_decide; [|contradiction]. simpl.
    destruct (status_request_job v name old_color new_color)
      as (f & rest & Hr & _).
    rewrite Hr, request_about_same.
    rewrite changed_requests_other; [reflexivity|].
    intros color Hc. exfalso. apply Hn.
    change (In name (map fst items)). apply (in_map fst) in Hc. exact Hc.
  - assert (n <> name).
    { intros ->. apply Hn. change (In name (map fst items)).
      apply (in_map fst) in Hin. exact Hin. }
    destruct (Dict.get n old_jobs) as [oc|]; simpl.
    + case_decide; simpl; [|apply IH; assumption].
      destruct (status_request_job v n oc c) as (f & rest & -> & _).
      rewrite request_about_other by assumption. apply IH; assumption.
    + rewrite request_about_other by assumption. apply IH; assumption.
Qed.

Lemma In_keys (name : string) (d : snapshot) :
  In name (Dict.keys d) -> exists color, In (name, color) d.
Proof.
  unfold Dict.keys. rewrite in_map_iff. intros ([n c] & <- & H).
  exists c. exact H.
Qed.



(** X14. With distinct names in both snapshots, no job is the subject of
    more than one call in a cycle. *)
Theorem at_most_one_call_per_job (old_jobs new_jobs : snapshot) (s : state) :
  jobs (self s) = Some old_jobs ->
  NoDup (Dict.keys old_jobs) ->
  NoDup (Dict.keys new_jobs) ->
  exists events,
    log (snd (update (inr new_jobs) s)) = log s ++ events
    /\ forall name, length (List.filter (about name) events) <= 1.
Proof.
  intros Hj Hold Hnew. eexists. split.
  - rewrite update_log, Hj. reflexivity.
  - intros name. destruct old_jobs as [|item old_jobs]; [simpl; lia|].
    unfold cycle_requests, requests. set (old := item :: old_jobs) in *.
    rewrite filter_dispatches, List.filter_app, length_map, length_app.
    destruct (Dict.get name new_jobs) as [c|] eqn:Hg.
    + rewrite deleted_requests_other
        by (right; unfold Dict.mem; rewrite Hg; reflexivity).
      assert (Hin : In (name, c) new_jobs).
      { clear -Hg. induction new_jobs as [|[n c'] d IH]; [discriminate|].
        simpl in Hg. case_decide.
        - injection Hg as ->. subst. left. reflexivity.
        - right. apply IH, Hg. }
      destruct (Dict.get name old) as [oc|] eqn:Ho.
      * destruct (decide (c = oc)) as [->|Hc].
        -- rewrite changed_requests_other; [simpl; lia|].
           intros c' Hc'. rewrite Ho. f_equal.
           pose proof (get_In name c' new_jobs Hnew Hc'). congruence.
        -- rewrite (changed_requests_changed _ name oc c) by assumption.
           simpl. lia.
      * rewrite changed_requests_created; [simpl; lia|assumption| |assumption].
        change (In name (map fst new_jobs)).
        apply (in_map fst) in Hin. exact Hin.
    + rewrite (changed_requests_other _ name new_jobs).
      2:{ intros c Hc. pose proof (get_In name c new_jobs Hnew Hc).
          congruence. }
      destruct (in_dec string_dec name (Dict.keys old)) as [Hin|Hout].
      * rewrite deleted_requests_one
          by first [assumption | unfold Dict.mem; rewrite Hg; reflexivity].
        simpl. lia.
      * rewrite deleted_requests_other by (left; assumption). simpl. lia.
Qed.

Lemma at_most_one_call_per_job_witness :
  (NoDup (Dict.keys Sample.two_jobs)
   /\ NoDup (Dict.keys [("B", "red"); ("C", "grey")]))
  /\ exists events,
       log (snd (update (inr [("B", "red"); ("C", "grey")])
                   (Sample.engine "./" default_funcs (Some Sample.two_jobs))))
       = [] ++ events
       /\ forall name, length (List.filter (about name) events) <= 1.
Proof.
  split.
  - split; refine (bool_decide_unpack _ _); vm_compute; exact I.
  - apply (at_most_one_call_per_job Sample.two_jobs
             [("B", "red"); ("C", "grey")]
             (Sample.engine "./" default_funcs (Some Sample.two_jobs))).
    + reflexivity.
    + refine (bool_decide_unpack _ _); vm_compute; exact I.
    + refine (bool_decide_unpack _ _); vm_compute; exact I.
Defined.

Lemma deleted_jobs_sublist (j : Jenkins) names new_jobs :
  sublist (omap job_of (map (dispatch_of j) (deleted_requests names new_jobs)))
    names.
Proof.
  induction names as [|n names IH]; simpl; [constructor|].
  destruct (negb (Dict.mem n new_jobs)); simpl.
  - apply sublist_skip. exact IH.
  - apply sublist_cons. exact IH.
Qed.

Lemma changed_jobs_sublist (j : Jenkins) (v : bool) items old_jobs :
  sublist
    (omap job_of (map (dispatch_of j) (changed_requests v items old_jobs)))
    (Dict.keys items).
Proof.
  induction items as [|[n c] items IH]; simpl; [constructor|].
  destruct (Dict.get n old_jobs) as [oc|]; simpl.
  - case_decide; simpl; [|apply sublist_cons; exact IH].
    destruct (status_request_job v n oc c) as (f & rest & -> & _).
    simpl. apply sublist_skip. exact IH.
  - apply sublist_skip. exact IH.
Qed.

(** X15. The calls of a cycle follow the order of the dictionaries: the
    jobs they are about are, in this order, names of the old snapshot
    followed by names of the new one, each in the order of its
    dictionary. *)
Theorem calls_follow_dictionary_order (old_jobs new_jobs : snapshot)
    (s : state) :
  jobs (self s) = Some old_jobs ->
  exists events,
    log (snd (update (inr new_jobs) s)) = log s ++ events
    /\ sublist (omap job_of events)
         (Dict.keys old_jobs ++ Dict.keys new_jobs).
Proof.
  intros Hj. eexists. split.
  - rewrite update_log, Hj. reflexivity.
  - destruct old_jobs as [|item old_jobs]; [apply sublist_nil_l|].
    unfold cycle_requests, requests. rewrite map_app, omap_app.
    apply sublist_app; [apply deleted_jobs_sublist|apply changed_jobs_sublist].
Qed.

Lemma calls_follow_dictionary_order_witness :
  exists events,
    log (snd (update (inr [("B", "red"); ("C", "grey")])
                (Sample.engine "./" default_funcs (Some Sample.two_jobs))))
    = [] ++ events
    /\ sublist (omap job_of events)
         (Dict.keys Sample.two_jobs ++ Dict.keys [("B", "red"); ("C", "grey")]).
Proof.
  apply (calls_follow_dictionary_order Sample.two_jobs
           [("B", "red"); ("C", "grey")]
           (Sample.engine "./" default_funcs (Some Sample.two_jobs))).
  reflexivity.
Defined.

Lemma init_funcs_has_seven (funcs_arg : gmap string handler)
    (h1 h2 h3 h4 h5 h6 h7 : handler) (key : string) :
  In key seven_keys ->
  is_Some (init_funcs funcs_arg h1 h2 h3 h4 h5 h6 h7 !! key).
Proof.
  intros Hin. unfold init_funcs. apply lookup_union_is_Some. right.
  simpl in Hin.
  repeat (destruct Hin as [<-|Hin];
          [rewrite ?lookup_insert_ne by discriminate;
           rewrite lookup_insert_eq; eauto|]).
  destruct Hin.
Qed.

Lemma status_request_key (v : bool) (name old_color new_color : string) :
  In (fst (status_request v name old_color new_color)) seven_keys.
Proof.
  unfold status_request, seven_keys. destruct (_ && _); [simpl; tauto|].
  repeat (case_decide; [simpl; tauto|]). simpl. tauto.
Qed.

Lemma requests_keys (v : bool) (old_jobs new_jobs : snapshot) :
  Forall (fun r => In (fst r) seven_keys) (requests v old_jobs new_jobs).
Proof.
  unfold requests. apply Forall_app. split.
  - induction (Dict.keys old_jobs) as [|n names IH]; simpl; [constructor|].
    destruct (negb _); simpl; [constructor; [simpl; tauto|]|]; exact IH.
  - induction new_jobs as [|[n c] items IH]; simpl; [constructor|].
    destruct (Dict.get n old_jobs) as [oc|]; simpl.
    + case_decide; simpl; [|exact IH].
      constructor; [apply status_request_key | exact IH].
    + constructor; [simpl; tauto | exact IH].
Qed.

(** X16. The table that the constructor builds has a handler under each of
    the seven keys, whatever the argument [funcs] holds, and an entry of
    [funcs] replaces the handler of its key; with such a table no call of a
    cycle meets a missing key. *)
Theorem constructed_table_is_complete (funcs_arg : gmap string handler)
    (h1 h2 h3 h4 h5 h6 h7 : handler) :
  (forall key, In key seven_keys ->
     is_Some (init_funcs funcs_arg h1 h2 h3 h4 h5 h6 h7 !! key))
  /\ (forall key h, funcs_arg !! key = Some h ->
        init_funcs funcs_arg h1 h2 h3 h4 h5 h6 h7 !! key = Some h)
  /\ (forall new_jobs s,
        funcs (self s) = init_funcs funcs_arg h1 h2 h3 h4 h5 h6 h7 ->
        exists events,
          log (snd (update (inr new_jobs) s)) = log s ++ events
          /\ Forall (fun d => d_outcome d <> NoHandler) events).
Proof.
  split; [intros key; apply init_funcs_has_seven|]. split.
  - intros key h Hk. unfold init_funcs. apply lookup_union_Some_l. exact Hk.
  - intros new_jobs s Hf. eexists. split; [apply update_log|].
    apply List.Forall_map.
    assert (Hreq : Forall (fun r => In (fst r) seven_keys)
                     (cycle_requests (verbose (self s)) (jobs (self s))
                        new_jobs)).
    { unfold cycle_requests. destruct (jobs (self s)) as [[|item d]|];
        [constructor|apply requests_keys|constructor]. }
    eapply List.Forall_impl; [|exact Hreq].
    intros r Hr. unfold dispatch_of, outcome_of. cbn [d_outcome].
    rewrite Hf.
    pose proof (init_funcs_has_seven funcs_arg h1 h2 h3 h4 h5 h6 h7 (fst r) Hr)
      as Hsome.
    destruct (_ !! _) as [h|]; [|destruct Hsome; discriminate].
    destruct (h_ok _); discriminate.
Qed.

(** ** [offline_update] and [status_change] on their own *)

Lemma changed_requests_from_empty (v : bool) (items : snapshot) :
  changed_requests v items []
  = map (fun name => ("created", [AStr name])) (Dict.keys items).
Proof.
  induction items as [|[n c] items IH]; simpl; [reflexivity|].
  rewrite IH. reflexivity.
Qed.

(** X17. Called on an object whose snapshot is the empty dictionary,
    [offline_update] reports every job of the new snapshot as created, in
    the order of the dictionary, where [update] stays silent. *)
Theorem offline_update_from_empty (new_jobs : snapshot) (s : state) :
  jobs (self s) = Some [] ->
  fst (offline_update new_jobs s) = inr None
  /\ jobs (self (snd (offline_update new_jobs s))) = Some new_jobs
  /\ log (snd (offline_update new_jobs s))
     = log s ++ map (fun name => dispatch_of (self s) ("created", [AStr name]))
                  (Dict.keys new_jobs)
  /\ log (snd (update (inr new_jobs) s)) = log s.
Proof.
  intros Hj. rewrite (offline_update_run [] new_jobs s Hj). simpl.
  repeat split.
  - unfold requests. simpl. rewrite changed_requests_from_empty, map_map.
    reflexivity.
  - rewrite update_log, Hj. simpl. apply app_nil_r.
Qed.

Lemma offline_update_from_empty_witness :
  log (snd (offline_update [("A", "blue"); ("B", "red")]
              (Sample.engine "./" default_funcs (Some []))))
  = [Dispatch "created" [AStr "A"] Returned;
     Dispatch "created" [AStr "B"] Returned].
Proof.
  pose proof (offline_update_from_empty [("A", "blue"); ("B", "red")]
                (Sample.engine "./" default_funcs (Some [])) eq_refl)
    as (_ & _ & H & _).
  exact H.
Defined.

(** X18. A new colour [aborted], [red] or [blue] is reported as such
    whatever the old colour was: the rule of the running marker cannot
    take these three colours away from their rules. *)
Theorem finished_build_is_reported_by_outcome (name old_color : string)
    (s : state) :
  status_change name old_color "aborted" s = call "aborted" [AStr name] s
  /\ status_change name old_color "red" s = call "failed" [AStr name] s
  /\ status_change name old_color "blue" s = call "passed" [AStr name] s.
Proof. repeat split; rewrite status_change_run; reflexivity. Qed.

(** X19. A change of colour of a job that was running and still is goes
    to the handler of unknown changes, with the two colours as they are
    and the [verbose] flag of the object. *)
Theorem still_running_is_unknown (name old_color new_color : string)
    (s : state) :
  Str.contains "anime" old_color = true ->
  Str.contains "anime" new_color = true ->
  status_change name old_color new_color s
  = call "unknown"
      [AStr name; AStr old_color; AStr new_color; ABool (verbose (self s))] s.
Proof.
  intros Hold Hnew. rewrite status_change_run. unfold status_request.
  rewrite Hold, Hnew. simpl.
  repeat (case_decide; [subst; discriminate Hnew|]). reflexivity.
Qed.

Lemma still_running_is_unknown_witness :
  status_change "A" "blue_anime" "red_anime"
    (Sample.engine "./" default_funcs (Some [("A", "blue_anime")]))
  = call "unknown"
      [AStr "A"; AStr "blue_anime"; AStr "red_anime"; ABool false]
      (Sample.engine "./" default_funcs (Some [("A", "blue_anime")])).
Proof.
  apply (still_running_is_unknown "A" "blue_anime" "red_anime"
           (Sample.engine "./" default_funcs (Some [("A", "blue_anime")])));
    reflexivity.
Defined.

Lemma constructed_table_is_complete_witness :
  exists events,
    log (snd (update (inr [("B", "red"); ("C", "grey")])
                (Sample.engine "./" default_funcs (Some Sample.two_jobs))))
    = [] ++ events
    /\ Forall (fun d => d_outcome d <> NoHandler) events.
Proof.
  destruct (constructed_table_is_complete empty job_created job_deleted
              build_passed build_failed build_started build_aborted
              unknown_colors) as (_ & _ & H).
  apply (H [("B", "red"); ("C", "grey")]
           (Sample.engine "./" default_funcs (Some Sample.two_jobs))).
  reflexivity.
Defined.

(** ** Dictionaries, continued *)

Lemma get_set_eq (k v : string) (d : snapshot) :
  Dict.get k (Dict.set k v d) = Some v.
Proof.
  induction d as [|[k' v'] d IH]; simpl.
  - case_decide; congruence.
  - case_decide; simpl; case_decide; congruence.
Qed.

Lemma get_set_ne (k k' v : string) (d : snapshot) :
  k' <> k -> Dict.get k' (Dict.set k v d) = Dict.get k' d.
Proof.
  intros Hne. induction d as [|[k0 v0] d IH]; simpl.
  - case_decide; congruence.
  - case_decide; simpl; case_decide; congruence.
Qed.

Lemma keys_set (k v : string) (d : snapshot) :
  Dict.keys (Dict.set k v d)
  = if Dict.mem k d then Dict.keys d else Dict.keys d ++ [k].
Proof.
  unfold Dict.mem. induction d as [|[k' v'] d IH]; simpl; [reflexivity|].
  case_decide; simpl; [reflexivity|]. rewrite IH.
  destruct (Dict.get k d); reflexivity.
Qed.

Lemma set_fresh (k v : string) (d : snapshot) :
  ~ In k (Dict.keys d) -> Dict.set k v d = d ++ [(k, v)].
Proof.
  induction d as [|[k' v'] d IH]; simpl; [reflexivity|].
  intros Hk. case_decide; [subst; tauto|]. rewrite IH by tauto. reflexivity.
Qed.

Lemma keys_set_NoDup (k v : string) (d : snapshot) :
  NoDup (Dict.keys d) -> NoDup (Dict.keys (Dict.set k v d)).
Proof.
  intros Hnd. rewrite keys_set. destruct (Dict.mem k d) eqn:Hm; [exact Hnd|].
  apply mem_false in Hm. apply NoDup_app. split; [exact Hnd|]. split.
  - intros x Hx Hk. apply list_elem_of_In in Hx, Hk.
    destruct Hk as [<-|[]]. contradiction.
  - apply NoDup_singleton.
Qed.

Lemma get_Some_In (k v : string) (d : snapshot) :
  Dict.get k d = Some v -> In (k, v) d.
Proof.
  induction d as [|[k' v'] d IH]; [discriminate|]. simpl. case_decide.
  - intros [= ->]. subst. left. reflexivity.
  - intros Hg. right. apply IH, Hg.
Qed.

Lemma get_Permutation (k : string) (d d' : snapshot) :
  NoDup (Dict.keys d) -> Permutation d d' -> Dict.get k d' = Dict.get k d.
Proof.
  intros Hnd Hp.
  assert (Hnd' : NoDup (Dict.keys d'))
    by (unfold Dict.keys; rewrite <- (Permutation_map fst Hp); exact Hnd).
  destruct (Dict.get k d) as [v|] eqn:Hg.
  - apply get_In; [exact Hnd'|].
    eapply Permutation_in; [exact Hp|]. apply get_Some_In, Hg.
  - apply get_None. apply get_None in Hg. intros Hin. apply Hg.
    eapply Permutation_in; [apply Permutation_map, Permutation_sym, Hp|].
    exact Hin.
Qed.

(** ** Sorting *)

Lemma insert_item_Permutation (x : string * string) (l : snapshot) :
  Permutation (insert_item x l) (x :: l).
Proof.
  induction l as [|y l IH]; simpl; [reflexivity|].
  destruct (item_ltb y x); [|reflexivity].
  rewrite IH. apply perm_swap.
Qed.

Lemma sorted_Permutation (l : snapshot) : Permutation (sorted l) l.
Proof.
  induction l as [|x l IH]; simpl; [reflexivity|].
  rewrite insert_item_Permutation, IH. reflexivity.
Qed.

Lemma item_ltb_asym (a b : string * string) :
  item_ltb a b = true -> item_ltb b a = false.
Proof.
  unfold item_ltb, String.ltb.
  rewrite (String.compare_antisym (fst b) (fst a)).
  rewrite (String.compare_antisym (snd b) (snd a)).
  destruct (String.compare (fst a) (fst b)); simpl; try congruence.
  destruct (String.compare (snd a) (snd b)); simpl; congruence.
Qed.

(** [a] is not after [b]. *)
Lemma insert_item_Sorted (x : string * string) (l : snapshot) :
  Sorted (fun a b => item_ltb b a = false) l ->
  Sorted (fun a b => item_ltb b a = false) (insert_item x l).
Proof.
  induction l as [|y l IH]; simpl; intros Hs.
  - repeat constructor.
  - apply Sorted_inv in Hs as [Hs Hhd].
    destruct (item_ltb y x) eqn:Hyx.
    + constructor; [apply IH, Hs|].
      destruct l as [|z l]; simpl.
      * constructor. apply item_ltb_asym, Hyx.
      * destruct (item_ltb z x) eqn:Hzx.
        -- constructor. inversion Hhd; assumption.
        -- constructor. apply item_ltb_asym, Hyx.
    + constructor; [constructor; assumption|]. constructor. exact Hyx.
Qed.

Lemma sorted_Sorted (l : snapshot) :
  Sorted (fun a b => item_ltb b a = false) (sorted l).
Proof.
  induction l as [|x l IH]; simpl; [constructor|].
  apply insert_item_Sorted, IH.
Qed.

Lemma Sorted_keys (l : snapshot) :
  NoDup (Dict.keys l) ->
  Sorted (fun a b => item_ltb b a = false) l ->
  Sorted (fun x y => String.ltb x y = true) (Dict.keys l).
Proof.
  induction l as [|a l IH]; simpl; intros Hnd Hs; [constructor|].
  apply NoDup_cons in Hnd as [Ha Hnd]. apply Sorted_inv in Hs as [Hs Hhd].
  constructor; [apply IH; assumption|].
  destruct l as [|b l]; simpl; constructor.
  inversion Hhd as [|? ? Hab]; subst.
  unfold item_ltb in Hab. unfold String.ltb.
  rewrite (String.compare_antisym (fst b) (fst a)) in Hab.
  destruct (String.compare (fst a) (fst b)) eqn:Hc; simpl in Hab;
    [|reflexivity|discriminate].
  apply String.compare_eq_iff in Hc. exfalso. apply Ha.
  rewrite Hc. simpl. left.
Qed.

(** ** Fetching the jobs *)

Lemma collect_jobs_spec (entries : list (gmap string string))
    (acc jobs0 : snapshot) :
  collect_jobs entries acc = inr jobs0 ->
  NoDup (Dict.keys acc) ->
  NoDup (Dict.keys jobs0)
  /\ forall name,
       Dict.get name jobs0
       = match last_color name entries with
         | Some color => Some color
         | None => Dict.get name acc
         end.
Proof.
  revert acc. induction entries as [|job rest IH]; simpl; intros acc Hc Hnd.
  - injection Hc as <-. auto.
  - destruct (job !! "name") as [n|] eqn:Hn; [|discriminate].
    destruct (job !! "color") as [c|] eqn:Hcol; [|discriminate].
    destruct (IH _ Hc (keys_set_NoDup n c acc Hnd)) as [Hnd' Hget].
    split; [exact Hnd'|]. intros name. rewrite Hget.
    destruct (last_color name rest); [reflexivity|].
    case_decide as Hd.
    + injection Hd as ->. apply get_set_eq.
    + apply get_set_ne. congruence.
Qed.

Lemma collect_jobs_succeeds (entries : list (gmap string string))
    (acc : snapshot) :
  (exists jobs0, collect_jobs entries acc = inr jobs0)
  <-> Forall (fun job => is_Some (job !! "name") /\ is_Some (job !! "color"))
        entries.
Proof.
  revert acc. induction entries as [|job rest IH]; simpl; intros acc.
  - split; [constructor | eauto].
  - destruct (job !! "name") as [n|] eqn:Hn.
    + destruct (job !! "color") as [c|] eqn:Hc.
      * rewrite IH. split.
        -- intros H. constructor; [rewrite Hn, Hc; eauto | exact H].
        -- intros H. inversion H; assumption.
      * split; [intros [? [=]]|].
        intros H. inversion H as [|? ? [_ [? Hs]]]; subst.
        rewrite Hc in Hs. discriminate.
    + split; [intros [? [=]]|].
      intros H. inversion H as [|? ? [[? Hs] _]]; subst.
      rewrite Hn in Hs. discriminate.
Qed.

(** X20. The snapshot that [get_jobs_url] returns has distinct names in
    ascending order, and gives each name the colour of the last job of the
    reply that bears it. *)
Theorem get_jobs_url_sorted_and_distinct
    (dictionary : gmap string (list (gmap string string)))
    (entries : list (gmap string string)) (jobs0 : snapshot) :
  dictionary !! "jobs" = Some entries ->
  get_jobs_url dictionary = inr jobs0 ->
  NoDup (Dict.keys jobs0)
  /\ Sorted (fun x y => String.ltb x y = true) (Dict.keys jobs0)
  /\ forall name, Dict.get name jobs0 = last_color name entries.
Proof.
  intros Hd. unfold get_jobs_url. rewrite Hd.
  destruct (collect_jobs entries []) as [e|d] eqn:Hc; [discriminate|].
  intros [= <-].
  destruct (collect_jobs_spec entries [] d Hc NoDup_nil_2) as [Hnd Hget].
  assert (Hnd' : NoDup (Dict.keys (sorted d)))
    by (unfold Dict.keys;
        rewrite (Permutation_map fst (sorted_Permutation d)); exact Hnd).
  split; [exact Hnd'|]. split.
  - apply Sorted_keys; [exact Hnd' | apply sorted_Sorted].
  - intros name.
    rewrite (get_Permutation name d (sorted d) Hnd)
      by (symmetry; apply sorted_Permutation).
    rewrite Hget. destruct (last_color name entries); reflexivity.
Qed.

Lemma get_jobs_url_sorted_and_distinct_witness :
  get_jobs_url
    (<["jobs" := [<["name" := "B"]> (<["color" := "blue"]> empty);
                  <["name" := "A"]> (<["color" := "red"]> empty);
                  <["name" := "B"]> (<["color" := "red_anime"]> empty)]]>
       empty)
  = inr [("A", "red"); ("B", "red_anime")]
  /\ NoDup (Dict.keys [("A", "red"); ("B", "red_anime")])
  /\ Sorted (fun x y => String.ltb x y = true)
       (Dict.keys [("A", "red"); ("B", "red_anime")])
  /\ forall name,
       Dict.get name [("A", "red"); ("B", "red_anime")]
       = last_color name
           [<["name" := "B"]> (<["color" := "blue"]> empty);
            <["name" := "A"]> (<["color" := "red"]> empty);
            <["name" := "B"]> (<["color" := "red_anime"]> empty)].
Proof.
  split; [reflexivity|].
  apply (get_jobs_url_sorted_and_distinct
           (<["jobs" := [<["name" := "B"]> (<["color" := "blue"]> empty);
                         <["name" := "A"]> (<["color" := "red"]> empty);
                         <["name" := "B"]> (<["color" := "red_anime"]> empty)]]>
              empty));
    reflexivity.
Defined.

(** X21. [get_jobs_url] returns a snapshot exactly when the reply has a
    member ["jobs"] and each of its jobs has a ["name"] and a ["color"];
    otherwise it raises [KeyError]. *)
Theorem get_jobs_url_succeeds
    (dictionary : gmap string (list (gmap string string))) :
  (exists jobs0, get_jobs_url dictionary = inr jobs0)
  <-> exists entries,
        dictionary !! "jobs" = Some entries
        /\ Forall (fun job => is_Some (job !! "name")
                              /\ is_Some (job !! "color")) entries.
Proof.
  unfold get_jobs_url. destruct (dictionary !! "jobs") as [entries|].
  - pose proof (collect_jobs_succeeds entries []) as H. split.
    + intros [j Hj]. exists entries. split; [reflexivity|]. apply H.
      destruct (collect_jobs entries []); [discriminate|eauto].
    + intros (entries' & [= <-] & Hall). apply H in Hall as [j ->]. eauto.
  - split; [intros [? [=]] | intros (? & [=] & _)].
Qed.

(** ** Queries *)

Lemma running_names_sublist (d : snapshot) :
  sublist (running_names d) (Dict.keys d).
Proof.
  induction d as [|[n c] d IH]; simpl; [constructor|].
  destruct (Str.contains "anime" c);
    [apply sublist_skip | apply sublist_cons]; exact IH.
Qed.

Lemma running_names_In (name : string) (d : snapshot) :
  In name (running_names d)
  <-> exists color, In (name, color) d /\ Str.contains "anime" color = true.
Proof.
  induction d as [|[n c] d IH]; simpl.
  - split; [tauto | intros (? & [] & _)].
  - destruct (Str.contains "anime" c) eqn:Hc; simpl; rewrite IH; split.
    + intros [->|(c' & Hin & Hc')]; [exists c; auto|exists c'; auto].
    + intros (c' & [[= -> ->]|Hin] & Hc'); [auto|right; eauto].
    + intros (c' & Hin & Hc'). exists c'; auto.
    + intros (c' & [[= -> ->]|Hin] & Hc'); [congruence|eauto].
Qed.

(** X22. On an object with a snapshot of distinct names,
    [get_running_jobs] yields, in the order of the snapshot, exactly the
    names whose colour carries the running marker; it changes nothing. *)
Theorem running_jobs_are_the_marked_jobs (d : snapshot) (s : state) :
  jobs (self s) = Some d ->
  NoDup (Dict.keys d) ->
  get_running_jobs s = (inr (running_names d), s)
  /\ get_job_names s = (inr (Dict.keys d), s)
  /\ sublist (running_names d) (Dict.keys d)
  /\ forall name,
       In name (running_names d)
       <-> exists color,
             Dict.get name d = Some color
             /\ Str.contains "anime" color = true.
Proof.
  intros Hj Hnd. unfold get_running_jobs, get_job_names, bind, get_self.
  simpl. rewrite Hj. repeat split; try apply running_names_sublist.
  - rewrite running_names_In. intros (c & Hin & Hc). exists c.
    split; [apply get_In; assumption | exact Hc].
  - rewrite running_names_In. intros (c & Hg & Hc). exists c.
    split; [apply get_Some_In, Hg | exact Hc].
Qed.

Lemma running_jobs_are_the_marked_jobs_witness :
  get_running_jobs
    (Sample.engine "./" default_funcs
       (Some [("A", "red_anime"); ("B", "blue"); ("C", "aborted_anime")]))
  = (inr ["A"; "C"],
     Sample.engine "./" default_funcs
       (Some [("A", "red_anime"); ("B", "blue"); ("C", "aborted_anime")])).
Proof.
  pose proof (running_jobs_are_the_marked_jobs
                [("A", "red_anime"); ("B", "blue"); ("C", "aborted_anime")]
                (Sample.engine "./" default_funcs
                   (Some [("A", "red_anime"); ("B", "blue");
                          ("C", "aborted_anime")]))
                eq_refl
                ltac:(refine (bool_decide_unpack _ _); vm_compute; exact I))
    as (H & _).
  exact H.
Defined.

Lemma started_request (v : bool) (old_jobs new_jobs : snapshot)
    (r : string * list arg) :
  In r (requests v old_jobs new_jobs) -> fst r = "started" ->
  exists name color,
    snd r = [AStr name] /\ In (name, color) new_jobs
    /\ Str.contains "anime" color = true.
Proof.
  unfold requests. rewrite in_app_iff. intros [Hin|Hin] Hf.
  - exfalso. pose proof (deleted_requests_func (Dict.keys old_jobs) new_jobs)
      as Hall.
    rewrite List.Forall_forall in Hall. specialize (Hall r Hin).
    rewrite Hall in Hf. discriminate Hf.
  - induction new_jobs as [|[n c] items IH]; simpl in Hin; [destruct Hin|].
    apply in_app_iff in Hin as [Hin|Hin].
    + destruct (Dict.get n old_jobs) as [oc|].
      * case_decide; [|destruct Hin]. destruct Hin as [<-|[]].
        unfold status_request in *.
        destruct (Str.contains "anime" c) eqn:Hc; simpl in *.
        -- destruct (negb _); simpl in *.
           ++ exists n, c. split; [reflexivity|]. split; [left; reflexivity|].
              exact Hc.
           ++ repeat (case_decide; [discriminate Hf|]). discriminate Hf.
        -- repeat (case_decide; [discriminate Hf|]). discriminate Hf.
      * destruct Hin as [<-|[]]. discriminate Hf.
    + destruct (IH Hin) as (name & color & H1 & H2 & H3).
      exists name, color. split; [exact H1|]. split; [right; exact H2|exact H3].
Qed.

(** X23. Every job for which a cycle calls [started] is among the running
    jobs that the object lists after the cycle. *)
Theorem started_job_is_listed_as_running (new_jobs : snapshot) (s : state) :
  exists events,
    log (snd (update (inr new_jobs) s)) = log s ++ events
    /\ fst (get_running_jobs (snd (update (inr new_jobs) s)))
       = inr (running_names new_jobs)
    /\ forall d name,
         In d events -> d_func d = "started" -> job_of d = Some name ->
         In name (running_names new_jobs).
Proof.
  eexists. split; [apply update_log|]. split.
  - unfold get_running_jobs, bind, get_self. simpl.
    rewrite update_self. reflexivity.
  - intros d name Hin Hf Hjob. apply in_map_iff in Hin as (r & <- & Hr).
    unfold cycle_requests in Hr.
    destruct (jobs (self s)) as [[|item old_jobs]|]; try destruct Hr.
    destruct (started_request _ _ _ r Hr Hf) as (n & c & Hargs & Hin & Hc).
    unfold job_of, dispatch_of in Hjob. simpl in Hjob. rewrite Hargs in Hjob.
    injection Hjob as <-. apply running_names_In. eauto.
Qed.

(** ** The dictionary of changes *)

Lemma entry_of_job (j : Jenkins) (func_id name : string) (rest : list arg) :
  entry_of j (func_id, AStr name :: rest)
  = Some (name, result_of j func_id (AStr name :: rest)).
Proof.
  unfold entry_of, change_of, dispatch_of, result_of, job_of. simpl.
  destruct (outcome_of j func_id (AStr name :: rest)); reflexivity.
Qed.

Lemma keys_app (d d' : snapshot) :
  Dict.keys (d ++ d') = Dict.keys d ++ Dict.keys d'.
Proof. apply map_app. Qed.

Lemma omap_entry_single (j : Jenkins) (func_id name : string)
    (rest : list arg) :
  omap (entry_of j) [(func_id, AStr name :: rest)]
  = [(name, result_of j func_id (AStr name :: rest))].
Proof.
  change (omap (entry_of j) [(func_id, AStr name :: rest)])
    with (match entry_of j (func_id, AStr name :: rest) with
          | Some y => [y]
          | None => []
          end).
  rewrite entry_of_job. reflexivity.
Qed.

Lemma deleted_requests_cons (name : string) names new_jobs :
  deleted_requests (name :: names) new_jobs
  = (if negb (Dict.mem name new_jobs) then [("deleted", [AStr name])] else [])
      ++ deleted_requests names new_jobs.
Proof. reflexivity. Qed.

Lemma changed_requests_cons (v : bool) (name color : string) items old_jobs :
  changed_requests v ((name, color) :: items) old_jobs
  = match Dict.get name old_jobs with
    | None => [("created", [AStr name])]
    | Some old_color =>
        if decide (color <> old_color)
        then [status_request v name old_color color]
        else []
    end ++ changed_requests v items old_jobs.
Proof. reflexivity. Qed.

Lemma fresh_after_entry (n name r : string) (names : list string)
    (changes : snapshot) :
  ~ In name names ->
  (forall n, In n (name :: names) -> ~ In n (Dict.keys changes)) ->
  In n names -> ~ In n (Dict.keys (changes ++ [(name, r)])).
Proof.
  intros Hn Hf Hin. rewrite keys_app, in_app_iff. simpl.
  intros [H|[H|[]]]; [apply (Hf n); [right; exact Hin|exact H]|].
  subst. contradiction.
Qed.

Lemma deleted_loop_changes names new_jobs changes (s : state) :
  NoDup names ->
  (forall n, In n names -> ~ In n (Dict.keys changes)) ->
  fst (deleted_loop names new_jobs changes s)
  = inr (changes
           ++ omap (entry_of (self s)) (deleted_requests names new_jobs)).
Proof.
  revert changes s. induction names as [|name rest IH]; intros changes s Hnd Hf.
  - simpl. rewrite app_nil_r. reflexivity.
  - apply NoDup_cons in Hnd as [Hn Hnd]. rewrite list_elem_of_In in Hn.
    rewrite deleted_requests_cons. cbn [deleted_loop].
    destruct (negb (Dict.mem name new_jobs)).
    + unfold bind. rewrite call_run. cbv beta iota.
      rewrite set_fresh by (apply Hf; left; reflexivity).
      rewrite IH; [|exact Hnd|intros n; apply fresh_after_entry; assumption].
      cbn [self]. rewrite omap_app, omap_entry_single, <- app_assoc.
      reflexivity.
    + apply IH; [exact Hnd|]. intros n Hin. apply Hf. right. exact Hin.
Qed.

Lemma changed_loop_changes items old_jobs changes (s : state) :
  NoDup (Dict.keys items) ->
  (forall n, In n (Dict.keys items) -> ~ In n (Dict.keys changes)) ->
  fst (changed_loop items old_jobs changes s)
  = inr (changes
           ++ omap (entry_of (self s))
                (changed_requests (verbose (self s)) items old_jobs)).
Proof.
  revert changes s. induction items as [|[name c] rest IH];
    intros changes s Hnd Hf.
  - simpl. rewrite app_nil_r. reflexivity.
  - change (Dict.keys ((name, c) :: rest)) with (name :: Dict.keys rest)
      in Hnd, Hf.
    apply NoDup_cons in Hnd as [Hn Hnd]. rewrite list_elem_of_In in Hn.
    rewrite changed_requests_cons. cbn [changed_loop].
    destruct (Dict.get name old_jobs) as [oc|].
    + case_decide.
      * unfold bind. rewrite status_change_run, call_run. cbv beta iota.
        rewrite set_fresh by (apply Hf; left; reflexivity).
        rewrite IH; [|exact Hnd|intros n; apply fresh_after_entry; assumption].
        cbn [self]. rewrite omap_app.
        destruct (status_request_job (verbose (self s)) name oc c)
          as (f & args & Hr & _).
        rewrite Hr. cbn [fst snd].
        rewrite omap_entry_single, <- app_assoc. reflexivity.
      * apply IH; [exact Hnd|]. intros n Hin. apply Hf. right. exact Hin.
    + unfold bind. rewrite call_run. cbv beta iota.
      rewrite set_fresh by (apply Hf; left; reflexivity).
      rewrite IH; [|exact Hnd|intros n; apply fresh_after_entry; assumption].
      cbn [self]. rewrite omap_app, omap_entry_single, <- app_assoc.
      reflexivity.
Qed.

Lemma deleted_entries_gone (j : Jenkins) (n : string) names new_jobs :
  In n (Dict.keys (omap (entry_of j) (deleted_requests names new_jobs))) ->
  Dict.mem n new_jobs = false.
Proof.
  induction names as [|name rest IH]; [simpl; tauto|].
  rewrite deleted_requests_cons.
  destruct (Dict.mem name new_jobs) eqn:Hm; [exact IH|].
  cbn [negb]. rewrite omap_app, omap_entry_single.
  intros [<-|H]; [exact Hm|apply IH, H].
Qed.

Lemma omap_dispatches (j : Jenkins) (reqs : list (string * list arg)) :
  omap change_of (map (dispatch_of j) reqs) = omap (entry_of j) reqs.
Proof.
  induction reqs as [|r reqs IH]; [reflexivity|].
  change (omap change_of (map (dispatch_of j) (r :: reqs)))
    with (match change_of (dispatch_of j r) with
          | Some y => y :: omap change_of (map (dispatch_of j) reqs)
          | None => omap change_of (map (dispatch_of j) reqs)
          end).
  rewrite IH. reflexivity.
Qed.

(** X24. With distinct names in both snapshots, the dictionary [changes]
    that [offline_update] builds has one entry for each call it makes, in
    the order of the calls: the job of the call, with the key of the
    handler when the handler returned and ["function-error"] when it did
    not. *)
Theorem changes_record_the_calls (old_jobs new_jobs : snapshot) (s : state) :
  NoDup (Dict.keys old_jobs) ->
  NoDup (Dict.keys new_jobs) ->
  exists events,
    log (snd (collect_changes old_jobs new_jobs s)) = log s ++ events
    /\ fst (collect_changes old_jobs new_jobs s)
       = inr (omap change_of events).
Proof.
  intros Hold Hnew. eexists. split.
  - destruct (collect_changes_run old_jobs new_jobs s) as [c ->]. reflexivity.
  - rewrite omap_dispatches. unfold collect_changes, bind, requests.
    pose proof (deleted_loop_changes (Dict.keys old_jobs) new_jobs [] s Hold
                  (fun n _ H => H)) as H1.
    destruct (deleted_loop_run (Dict.keys old_jobs) new_jobs [] s)
      as [c1 Hrun].
    rewrite Hrun in H1 |- *. simpl in H1. injection H1 as ->.
    rewrite changed_loop_changes; [|exact Hnew|].
    + simpl. rewrite omap_app. reflexivity.
    + intros n Hin Hc. apply deleted_entries_gone in Hc.
      apply mem_false in Hc. contradiction.
Qed.

Lemma changes_record_the_calls_witness :
  (NoDup (Dict.keys Sample.two_jobs) /\ NoDup (Dict.keys [("B", "red")]))
  /\ exists events,
       log (snd (collect_changes Sample.two_jobs [("B", "red")]
                   Sample.broken_engine)) = [] ++ events
       /\ fst (collect_changes Sample.two_jobs [("B", "red")]
                 Sample.broken_engine)
          = inr (omap change_of events).
Proof.
  split.
  - split; refine (bool_decide_unpack _ _); vm_compute; exact I.
  - apply (changes_record_the_calls Sample.two_jobs [("B", "red")]
             Sample.broken_engine);
      refine (bool_decide_unpack _ _); vm_compute; exact I.
Defined.
